(** * gitwip: listing the non-primary branches of the repositories of a tree

    A shallow embedding of [src/gitwip/main.py] (and of the locator of the
    older single-file [main.py]) together with the properties of the
    repository locator, the primary-branch resolver and the report builder.

    Conventions of the embedding:
    - a Python [str] is a [string]; a character is a code point below 256;
    - a [pathlib.Path] that is absolute and normalised is the list of its
      components below the filesystem root;
    - the [git] executable is an oracle from a repository path and an
      argument list to the captured standard output, [None] standing for a
      non-zero exit status ([subprocess.CalledProcessError]);
    - effects (the invocations of [git], the lines printed) are threaded
      through a state-and-exception monad over a [world]. *)

From Stdlib Require Import Ascii String NArith.
From stdpp Require Import base list gmap strings sorting.

Local Open Scope string_scope.
Local Open Scope list_scope.

(** ** Python strings *)

Module PyStr.

Definition code (c : ascii) : N := N_of_ascii c.

(** [str.isspace] on one character, for the code points below 256:
    U+0009..U+000D, U+001C..U+0020, U+0085 and U+00A0. *)
Definition isspace (c : ascii) : bool :=
  let n := code c in
  ((9 <=? n) && (n <=? 13) || (28 <=? n) && (n <=? 32)
   || (n =? 133) || (n =? 160))%N.

(** The line boundaries of [str.splitlines] below 256, the two-character
    boundary CR LF apart: LF, VT, FF, CR, FS, GS, RS and NEL. *)
Definition islinebreak (c : ascii) : bool :=
  let n := code c in
  ((10 <=? n) && (n <=? 13) || (28 <=? n) && (n <=? 30) || (n =? 133))%N.

Definition CR : ascii := ascii_of_N 13.
Definition LF : ascii := ascii_of_N 10.

(** [bool(s)] of a string. *)
Definition nonempty (s : string) : bool :=
  match s with EmptyString => false | String _ _ => true end.

Fixpoint lstrip (s : string) : string :=
  match s with
  | EmptyString => EmptyString
  | String c r => if isspace c then lstrip r else s
  end.

Fixpoint rstrip (s : string) : string :=
  match s with
  | EmptyString => EmptyString
  | String c r =>
      let r' := rstrip r in
      if isspace c && negb (nonempty r') then EmptyString else String c r'
  end.

(** [s.strip()] *)
Definition strip (s : string) : string := rstrip (lstrip s).

(** [s.startswith(p)] *)
Fixpoint startswith (p s : string) : bool :=
  match p, s with
  | EmptyString, _ => true
  | String a p', String b s' => Ascii.eqb a b && startswith p' s'
  | String _ _, EmptyString => false
  end.

Fixpoint drop (n : nat) (s : string) : string :=
  match n, s with
  | O, _ => s
  | S n', String _ r => drop n' r
  | S _, EmptyString => EmptyString
  end.

(** [s.removeprefix(p)] *)
Definition removeprefix (p s : string) : string :=
  if startswith p s then drop (String.length p) s else s.

(** [needle in s] *)
Fixpoint contains (needle s : string) : bool :=
  startswith needle s
  || match s with
     | EmptyString => false
     | String _ r => contains needle r
     end.

(** [s.splitlines()]: [cur] is the line being read. A line left open at
    the end of the text is kept only when it is not empty. *)
Fixpoint splitlines_from (cur s : string) : list string :=
  match s with
  | EmptyString => if nonempty cur then [cur] else []
  | String c r =>
      if Ascii.eqb c CR then
        match r with
        | String d r' =>
            if Ascii.eqb d LF then cur :: splitlines_from EmptyString r'
            else cur :: splitlines_from EmptyString r
        | EmptyString => cur :: splitlines_from EmptyString r
        end
      else if islinebreak c then cur :: splitlines_from EmptyString r
      else splitlines_from (cur +:+ String c EmptyString) r
  end.

Definition splitlines (s : string) : list string :=
  splitlines_from EmptyString s.

(** [s.split(sep, 1)] for a one-character separator: the text before the
    first separator and the text after it, or [s] alone. *)
Fixpoint split1_from (sep : ascii) (cur s : string) : list string :=
  match s with
  | EmptyString => [cur]
  | String c r =>
      if Ascii.eqb c sep then [cur; r]
      else split1_from sep (cur +:+ String c EmptyString) r
  end.

Definition split1 (sep : ascii) (s : string) : list string :=
  split1_from sep EmptyString s.

(** ['/'.join(parts)] and the like. *)
Fixpoint join (sep : string) (parts : list string) : string :=
  match parts with
  | [] => EmptyString
  | [x] => x
  | x :: rest => x +:+ sep +:+ join sep rest
  end.

End PyStr.

(** ** Paths *)

(** An absolute, normalised [pathlib.Path]: its components below the root. *)
Definition Path : Type := list string.

Module PyPath.

(** [str(p)] of an absolute path. *)
Definition str (p : Path) : string := "/" +:+ PyStr.join "/" p.

(** [str(r)] of a relative path: the empty relative path prints as a dot. *)
Definition str_rel (r : list string) : string :=
  match r with
  | [] => "."
  | _ => PyStr.join "/" r
  end.

(** [os.path.join(dirpath, name)] / [p / name] *)
Definition child (p : Path) (name : string) : Path := p ++ [name].

Fixpoint is_prefix (a b : list string) : bool :=
  match a, b with
  | [], _ => true
  | x :: a', y :: b' => String.eqb x y && is_prefix a' b'
  | _ :: _, [] => false
  end.

(** Lexicographic comparison, the order of Python sequences. *)
Fixpoint lex {A : Type} (cmp : A → A → comparison) (a b : list A)
  : comparison :=
  match a, b with
  | [], [] => Eq
  | [], _ :: _ => Lt
  | _ :: _, [] => Gt
  | x :: a', y :: b' =>
      match cmp x y with
      | Eq => lex cmp a' b'
      | c => c
      end
  end.

Definition char_compare (a b : ascii) : comparison :=
  N.compare (N_of_ascii a) (N_of_ascii b).

(** Comparison of two strings: by code points. *)
Definition str_compare (a b : string) : comparison :=
  lex char_compare (list_ascii_of_string a) (list_ascii_of_string b).

(** Comparison of two paths as [pathlib] does it: by the sequences of
    their components, each component compared as a string. *)
Definition compare (p q : Path) : comparison := lex str_compare p q.

Definition leb (p q : Path) : bool :=
  match compare p q with Gt => false | _ => true end.

Definition le (p q : Path) : Prop := leb p q = true.

(** The order a reader of [str(p)] would expect: by the printed string. *)
Definition str_leb (p q : Path) : bool :=
  match str_compare (str p) (str q) with Gt => false | _ => true end.

Definition str_le (p q : Path) : Prop := str_leb p q = true.

End PyPath.

(** The laws of a total comparison. *)
Record CmpLaws {A : Type} (cmp : A → A → comparison) : Prop := {
  cmp_eq : ∀ x y, cmp x y = Eq ↔ x = y;
  cmp_opp : ∀ x y, cmp y x = CompOpp (cmp x y);
  cmp_lt_trans : ∀ x y z, cmp x y = Lt → cmp y z = Lt → cmp x z = Lt
}.

(** The order read off a comparison: [x <= y] unless [x > y]. *)
Definition cmp_le {A : Type} (cmp : A → A → comparison) (x y : A) : Prop :=
  (match cmp x y with Gt => false | _ => true end) = true.

#[global] Instance path_le_dec : RelDecision PyPath.le.
Proof. intros p q. unfold PyPath.le. apply _. Defined.

#[global] Instance path_str_le_dec : RelDecision PyPath.str_le.
Proof. intros p q. unfold PyPath.str_le. apply _. Defined.

(** ** The directory tree and [os.walk] *)

(** What [os.walk] sees of a directory: the names of its subdirectories in
    listing order, each with what is behind it. A symbolic link to a
    directory is listed among the subdirectories but not walked into
    ([followlinks] is off); a directory that cannot be listed yields
    nothing ([onerror] is unset). Plain files play no part, and the names
    of one directory are distinct. The root of a walk is a resolved path,
    hence a directory proper. *)
#[warnings="-register-all"]
Inductive tree : Type :=
| Dir (entries : list (string * tree))
| Link
| Unreadable.

Section Walk.
Context {S : Type}.

(** The body of [for dirpath, dirnames, _ in os.walk(root)]: it receives
    the directory path, the list object [dirnames] and the loop state,
    and leaves the list object as the first component of its result.
    The walk goes on with the names that are still in that list. The
    bodies here only remove names, so the surviving names are visited in
    listing order. *)
Variable body : Path → list string → S → list string * S.

Fixpoint os_walk (top : Path) (t : tree) (s : S) : S :=
  match t with
  | Dir entries =>
      let '(dirnames, s1) := body top (map fst entries) s in
      fold_left
        (fun s e =>
           if existsb (String.eqb e.1) dirnames
           then os_walk (PyPath.child top e.1) e.2 s
           else s)
        entries s1
  | Link => s
  | Unreadable => s
  end.
End Walk.

(** [x in xs] for a list of strings. *)
Definition str_in (x : string) (xs : list string) : bool :=
  existsb (String.eqb x) xs.

(** [src/gitwip/main.py], [get_git_repos]. *)
Module Gitwip.

(** [not d.startswith('.') or d == '.git'] *)
Definition keep_dirname (d : string) : bool :=
  negb (PyStr.startswith "." d) || String.eqb d ".git".

Definition get_git_repos_body (skip_hidden_dirs : bool)
    (dirpath : Path) (dirnames : list string) (git_repos : list Path)
  : list string * list Path :=
  let dirnames :=
    if skip_hidden_dirs then List.filter keep_dirname dirnames
    else dirnames in
  if str_in ".git" dirnames
  then ([], git_repos ++ [dirpath])
  else (dirnames, git_repos).

Definition get_git_repos (root : Path) (fs : tree)
    (skip_hidden_dirs : bool) : list Path :=
  os_walk (get_git_repos_body skip_hidden_dirs) root fs [].

End Gitwip.

(** The names left in [dirnames] by the slice assignment of the loop body. *)
Definition kept_names (skip : bool) (names : list string) : list string :=
  if skip then List.filter Gitwip.keep_dirname names else names.

(** The locator in the words of its description: a subdirectory is left
    out when hidden directories are skipped and its name starts with a dot,
    the metadata directory [.git] apart. *)
Definition excluded (skipHidden : bool) (name : string) : bool :=
  skipHidden && PyStr.startswith "." name && negb (String.eqb name ".git").

(** The older [main.py], [get_git_repos]. *)
Module Legacy.

Definition keep_dirname (d : string) : bool :=
  negb (PyStr.startswith "." d) || String.eqb d ".git".

Definition get_git_repos_body (skip_hidden_dirs : bool)
    (dirpath : Path) (dirnames : list string) (git_repos : list Path)
  : list string * list Path :=
  let dirnames :=
    if skip_hidden_dirs then List.filter keep_dirname dirnames
    else dirnames in
  if str_in ".git" dirnames
  then ([], git_repos ++ [dirpath])
  else (dirnames, git_repos).

Definition get_git_repos (root : Path) (fs : tree)
    (skip_hidden_dirs : bool) : list Path :=
  os_walk (get_git_repos_body skip_hidden_dirs) root fs [].

End Legacy.

(** ** The world: invocations of git and printed lines *)

Inductive exn : Type :=
| IndexError
| ValueError
| UnicodeDecodeError
| RuntimeError.

Inductive result (A : Type) : Type :=
| Ok (a : A)
| Raise (e : exn).
Arguments Ok {A} a.
Arguments Raise {A} e.

(** [Fg] of [fortext], as far as it is used. *)
Inductive Fg : Type := BRIGHT_CYAN | YELLOW.

(** What one call of [p] prints: [p(style(text, fg))] or the bare [p()]. *)
Inductive printed : Type :=
| Styled (text : string) (fg : Fg)
| Blank.

Record world : Type := World {
  calls : list (Path * list string);   (* git invocations, oldest first *)
  stdout : list printed                (* lines printed, oldest first *)
}.

Definition M (A : Type) : Type := world → result A * world.

Definition ret {A} (a : A) : M A := fun w => (Ok a, w).

Definition raise {A} (e : exn) : M A := fun w => (Raise e, w).

Definition bind {A B} (m : M A) (k : A → M B) : M B :=
  fun w =>
    match m w with
    | (Ok a, w') => k a w'
    | (Raise e, w') => (Raise e, w')
    end.

Notation "x <- m ;; k" := (bind m (fun x => k))
  (at level 100, m at next level, right associativity).
Notation "m ;;; k" := (bind m (fun _ => k))
  (at level 100, right associativity).

Definition exn_eqb (a b : exn) : bool :=
  match a, b with
  | IndexError, IndexError | ValueError, ValueError => true
  | UnicodeDecodeError, UnicodeDecodeError => true
  | RuntimeError, RuntimeError => true
  | _, _ => false
  end.

(** [try: m  except e: handler] *)
Definition try_except {A} (m : M A) (e : exn) (handler : M A) : M A :=
  fun w =>
    match m w with
    | (Raise e', w') => if exn_eqb e e' then handler w' else (Raise e', w')
    | r => r
    end.

(** [for x in xs: body(x)] without [break] or [return]. *)
Fixpoint for_each {A} (xs : list A) (body : A → M unit) : M unit :=
  match xs with
  | [] => ret tt
  | x :: rest => body x ;;; for_each rest body
  end.

(** [xs[i]] *)
Definition index {A} (xs : list A) (i : nat) : M A :=
  match nth_error xs i with
  | Some x => ret x
  | None => raise IndexError
  end.

(** [p(...)] *)
Definition p (v : printed) : M unit :=
  fun w => (Ok tt, World (calls w) (stdout w ++ [v])).

(** [bool(x)] for [x : str | None]. *)
Definition truthy (x : option string) : bool :=
  match x with
  | Some s => PyStr.nonempty s
  | None => false
  end.

(** [b != primary_branch] for [primary_branch : str | None]: a string
    differs from [None]. *)
Definition py_ne (b : string) (primary_branch : option string) : bool :=
  match primary_branch with
  | Some q => negb (String.eqb b q)
  | None => true
  end.

Definition symbolic_ref_args : list string :=
  ["symbolic-ref"; "refs/remotes/origin/HEAD"].
Definition remote_show_args : list string := ["remote"; "show"; "origin"].
Definition show_ref_args (branch : string) : list string :=
  ["show-ref"; "--verify"; "refs/heads/" +:+ branch].
Definition branch_args : list string :=
  ["branch"; "--format=%(refname:short)"].

Definition colon : ascii := ascii_of_N 58.

Section Program.

(** [git -C repo_path args]: the captured standard output when the exit
    status is zero, [None] when [check=True] raises. *)
Variable git : Path → list string → option string.

(** [Path.resolve]: the canonical path of the filesystem. *)
Variable resolve : Path → Path.

(** [Path.home().resolve()] *)
Variable home : Path.

(** [subprocess.run([git_path, '-C', str(repo_path), *args], check=True)]
    for an executable whose output decodes as text; the case of an output
    that does not decode is [subprocess_run_text] below. *)
Definition subprocess_run (repo_path : Path) (args : list string)
  : M (option string) :=
  fun w => (Ok (git repo_path args),
            World (calls w ++ [(repo_path, args)]) (stdout w)).

(** The inner [_run_git] of [get_primary_branch]. *)
Definition _run_git (repo_path : Path) (args : list string)
  : M (option string) :=
  r <- subprocess_run repo_path args ;;
  ret (PyStr.strip <$> r).

(** [for line in output.splitlines(): if 'HEAD branch:' in line: return ...]
    [Some v]: the function returns [v]; [None]: the loop runs out. *)
Fixpoint head_branch_loop (lines : list string) : M (option (option string)) :=
  match lines with
  | [] => ret None
  | line :: rest =>
      if PyStr.contains "HEAD branch:" line then
        t <- index (PyStr.split1 colon line) 1 ;;
        ret (Some (Some (PyStr.strip t)))
      else head_branch_loop rest
  end.

(** [for branch in ('main', 'master'): if _run_git([...]): return branch] *)
Fixpoint probe_loop (repo_path : Path) (branches : list string)
  : M (option (option string)) :=
  match branches with
  | [] => ret None
  | branch :: rest =>
      r <- _run_git repo_path (show_ref_args branch) ;;
      if truthy r then ret (Some (Some branch))
      else probe_loop repo_path rest
  end.

Definition get_primary_branch (repo_path : Path) : M (option string) :=
  ref <- _run_git repo_path symbolic_ref_args ;;
  if truthy ref then
    ret (PyStr.removeprefix "refs/remotes/origin/" <$> ref)
  else
    output <- _run_git repo_path remote_show_args ;;
    found <- (if truthy output
              then head_branch_loop (PyStr.splitlines (default "" output))
              else ret None) ;;
    match found with
    | Some v => ret v
    | None =>
        found <- probe_loop repo_path ["main"; "master"] ;;
        match found with
        | Some v => ret v
        | None => ret None
        end
    end.

Definition get_repo_branches (repo_path : Path) : M (list string) :=
  r <- subprocess_run repo_path branch_args ;;
  match r with
  | Some stdout => ret (map PyStr.strip (PyStr.splitlines (PyStr.strip stdout)))
  | None => ret []
  end.

(** [repo_path.relative_to(home)] *)
Definition relative_to (repo_path other : Path) : M (list string) :=
  if PyPath.is_prefix other repo_path
  then ret (drop (length other) repo_path)
  else raise ValueError.

(** [[b for b in all_branches if b != primary_branch]] *)
Definition non_primary (all_branches : list string)
    (primary_branch : option string) : list string :=
  List.filter (fun b => py_ne b primary_branch) all_branches.

(** The [try]/[except ValueError] of the report loop. *)
Definition display_path_of (repo_path : Path) : M string :=
  try_except
    (rel <- relative_to repo_path home ;; ret ("~/" +:+ PyPath.str_rel rel))
    ValueError
    (ret (PyPath.str repo_path)).

(** The body of [for repo_path in sorted(repo_paths)]. *)
Definition report_repo (repo_path : Path) : M unit :=
  all_branches <- get_repo_branches repo_path ;;
  primary_branch <- get_primary_branch repo_path ;;
  let branches := non_primary all_branches primary_branch in
  match branches with
  | _ :: _ =>
      display_path <- display_path_of repo_path ;;
      p (Styled ("=== " +:+ display_path +:+ " ===") BRIGHT_CYAN) ;;;
      for_each branches (fun branch => p (Styled ("* " +:+ branch) YELLOW)) ;;;
      p Blank
  | [] => ret tt
  end.

(** [{p.resolve() for p in get_git_repos(root, ...)}] *)
Definition repo_paths (root : Path) (fs : tree) (skip_hidden_dirs : bool)
  : gset Path :=
  list_to_set (map resolve (Gitwip.get_git_repos root fs skip_hidden_dirs)).

(** [sorted(repo_paths)]: the elements of the set in the order of
    [pathlib]'s comparison. *)
Definition sorted (paths : gset Path) : list Path :=
  merge_sort PyPath.le (elements paths).

Definition find_repos_with_branches (root : Path) (fs : tree)
    (skip_hidden_dirs : bool) : M unit :=
  for_each (sorted (repo_paths root fs skip_hidden_dirs)) report_repo.

End Program.

Definition world0 : world := World [] [].

(** ** The resolver, read as a function *)

(** The text that follows the first occurrence of [sep], if there is one. *)
Fixpoint after_sep (sep : ascii) (s : string) : option string :=
  match s with
  | EmptyString => None
  | String c r => if Ascii.eqb c sep then Some r else after_sep sep r
  end.

(** The first line that contains the marker [HEAD branch:], and from it
    the text after its first colon, trimmed. *)
Definition head_branch (lines : list string) : option string :=
  match List.find (PyStr.contains "HEAD branch:") lines with
  | Some line => PyStr.strip <$> after_sep colon line
  | None => None
  end.

(** What [_run_git] hands back for an argument list: the trimmed output,
    or [None] when the invocation fails. *)
Definition answer (git : Path → list string → option string)
    (repo_path : Path) (args : list string) : option string :=
  PyStr.strip <$> git repo_path args.

(** The probe of the third strategy: [show-ref --verify refs/heads/<name>]
    resolves the reference without error and prints it (git prints the
    reference it has verified, so a probe that succeeds has an output). *)
Definition local_branch_exists (git : Path → list string → option string)
    (repo_path : Path) (name : string) : bool :=
  truthy (answer git repo_path (show_ref_args name)).

Definition remote_prefix : string := "refs/remotes/origin/".

Definition with_calls (w : world) (cs : list (Path * list string)) : world :=
  World (calls w ++ cs) (stdout w).

(** ** The report, read as a function *)

(** The value a computation returns in the empty world. *)
Definition eval {A} (m : M A) (d : A) : A :=
  match (m (World [] [])).1 with
  | Ok v => v
  | Raise _ => d
  end.

Section Readings.
Variable git : Path → list string → option string.
Variable home : Path.

(** The branch listing of a repository. *)
Definition listing (repo_path : Path) : list string :=
  eval (get_repo_branches git repo_path) [].

(** The resolved primary branch of a repository. *)
Definition primary (repo_path : Path) : option string :=
  eval (get_primary_branch git repo_path) None.

(** The invocations the resolver makes for a repository. *)
Definition primary_calls (repo_path : Path) : list (Path * list string) :=
  calls (get_primary_branch git repo_path (World [] [])).2.

(** The invocations made for one repository of the report loop. *)
Definition repo_calls (repo_path : Path) : list (Path * list string) :=
  (repo_path, branch_args) :: primary_calls repo_path.

(** The display path of a repository. *)
Definition display (repo_path : Path) : string :=
  eval (display_path_of home repo_path) "".

(** The lines of one report entry: header, branches, blank line. *)
Definition render (display_path : string) (branches : list string)
  : list printed :=
  Styled ("=== " +:+ display_path +:+ " ===") BRIGHT_CYAN
  :: map (fun branch => Styled ("* " +:+ branch) YELLOW) branches
  ++ [Blank].

(** What the report loop prints for one repository. *)
Definition block (repo_path : Path) : list printed :=
  match non_primary (listing repo_path) (primary repo_path) with
  | [] => []
  | branches => render (display repo_path) branches
  end.
End Readings.

(** The order of the report as its description has it: the paths sorted
    by their string representation. *)
Definition sorted_by_str (paths : gset Path) : list Path :=
  merge_sort PyPath.str_le (elements paths).

(** A path none of whose components has a character below the slash
    (a space, a dash, a dot and the like); components are not empty. *)
Definition plain_char (c : ascii) : bool := (47 <? N_of_ascii c)%N.

Definition plain_name (name : string) : bool :=
  PyStr.nonempty name && forallb plain_char (list_ascii_of_string name).

Definition plain_path (path : Path) : bool := forallb plain_name path.

Definition slash : ascii := ascii_of_N 47.

(** A list of characters that is empty or starts with a slash. *)
Definition slash_led (cs : list ascii) : Prop :=
  match cs with
  | [] => True
  | c :: _ => c = slash
  end.

(** The characters of the joined components, after the first component. *)
Definition tail_chars (rest : list string) : list ascii :=
  match rest with
  | [] => []
  | _ => slash :: list_ascii_of_string (PyStr.join "/" rest)
  end.

(** ** Sample repositories *)

Module Sample.

Definition nl : string := String PyStr.LF EmptyString.

Definition repo : Path := ["srv"; "proj"].

(** [origin/HEAD] is set and points to [main]. *)
Definition git_origin_head (_ : Path) (args : list string) : option string :=
  if bool_decide (args = symbolic_ref_args)
  then Some ("refs/remotes/origin/main" +:+ nl)
  else None.


(** No remote; the local branches are [master] and [wip]. *)
Definition git_local_master (_ : Path) (args : list string) : option string :=
  if bool_decide (args = show_ref_args "master")
  then Some ("1f0c3a refs/heads/master" +:+ nl)
  else if bool_decide (args = branch_args)
  then Some ("master" +:+ nl +:+ "wip" +:+ nl)
  else None.

(** Two repositories, [a/b] and [a-c], below one root. *)
Definition fs_dash : tree :=
  Dir [("a", Dir [("b", Dir [(".git", Dir [])])]);
       ("a-c", Dir [(".git", Dir [])])].

Definition root : Path := ["r"].

Definition home : Path := ["home"; "u"].

(** A filesystem without symbolic links: every path is canonical. *)
Definition resolve_id (path : Path) : Path := path.

(** A repository hidden below [.cache], next to a visible one. *)
Definition fs_hidden : tree :=
  Dir [(".cache", Dir [("repo", Dir [(".git", Dir [])])]);
       ("proj", Dir [(".git", Dir []);
                     ("vendor", Dir [("lib", Dir [(".git", Dir [])])])])].

(** [origin/HEAD] points to [main]; three local branches. *)
Definition git_three_branches (_ : Path) (args : list string)
  : option string :=
  if bool_decide (args = symbolic_ref_args)
  then Some ("refs/remotes/origin/main" +:+ nl)
  else if bool_decide (args = branch_args)
  then Some ("main" +:+ nl +:+ "feature/x" +:+ nl +:+ "bugfix" +:+ nl)
  else None.

(** Every invocation fails. *)
Definition git_failing (_ : Path) (_ : list string) : option string := None.

End Sample.

(** The four queries of the resolver. *)
Definition resolver_queries : list (list string) :=
  [symbolic_ref_args; remote_show_args;
   show_ref_args "main"; show_ref_args "master"].

(** A string without a line boundary, and a string that does not start
    with white space. *)
Definition single_line (s : string) : bool :=
  forallb (fun c => negb (PyStr.islinebreak c)) (list_ascii_of_string s).

Definition starts_clean (s : string) : Prop :=
  match s with
  | EmptyString => True
  | String c _ => PyStr.isspace c = false
  end.

(** The queries of one turn of the report loop. *)
Definition scan_queries : list (list string) := branch_args :: resolver_queries.

(** The separator after the scheme of a URL. *)
Definition scheme_sep : string := "://".

(** ** The locator, declaratively *)

(** The names [rel] lead from the directory [t] down to a directory that
    has [.git], through directories that have none, each step by a name
    that is not excluded. *)
Inductive repo_way (skip : bool) : tree → list string → Prop :=
| way_here (entries : list (string * tree)) :
    str_in ".git" (map fst entries) = true →
    repo_way skip (Dir entries) []
| way_below (entries : list (string * tree)) (d : string) (sub : tree)
    (rel : list string) :
    str_in ".git" (map fst entries) = false →
    In (d, sub) entries →
    excluded skip d = false →
    repo_way skip sub rel →
    repo_way skip (Dir entries) (d :: rel).

(** The names of every directory of the tree are distinct, as they are in
    a filesystem. *)
Fixpoint distinct_names (t : tree) : bool :=
  match t with
  | Dir entries =>
      bool_decide (NoDup (map fst entries))
      && forallb (fun e => distinct_names e.2) entries
  | Link => true
  | Unreadable => true
  end.

(** ** More Python strings *)

Module PyStrMore.

Fixpoint take (n : nat) (s : string) : string :=
  match n, s with
  | O, _ => EmptyString
  | S n', String c r => String c (take n' r)
  | S _, EmptyString => EmptyString
  end.

(** [s.endswith(suffix)] *)
Definition endswith (suffix s : string) : bool :=
  (String.length suffix <=? String.length s)%nat
  && String.eqb (PyStr.drop (String.length s - String.length suffix) s) suffix.

(** [s.removesuffix(suffix)] *)
Definition removesuffix (suffix s : string) : string :=
  if endswith suffix s
  then take (String.length s - String.length suffix) s
  else s.

(** [s[:-n]] for a positive [n]. *)
Definition chop (n : nat) (s : string) : string :=
  take (String.length s - n) s.

(** [s.split(sep)] for a separator that is not empty: [skip] counts the
    characters of a separator just found that are still to be passed
    over, [cur] is the piece being read. *)
Fixpoint split_from (sep : string) (skip : nat) (cur s : string)
  : list string :=
  match s with
  | EmptyString => [cur]
  | String c r =>
      match skip with
      | S k => split_from sep k cur r
      | O =>
          if PyStr.startswith sep s
          then cur :: split_from sep (String.length sep - 1) EmptyString r
          else split_from sep 0 (cur +:+ String c EmptyString) r
      end
  end.

Definition split (sep s : string) : list string :=
  split_from sep 0 EmptyString s.

End PyStrMore.

(** [path.name]: the last component, empty for the root. *)
Definition path_name (path : Path) : string := List.last path EmptyString.

Definition remote_get_url_args : list string := ["remote"; "get-url"; "origin"].

Definition at_char : ascii := ascii_of_N 64.

(** [src/gitwip/main.py], [get_repo_name]. The value of
    [url.removesuffix('.git')] is dropped by the source, a string being
    immutable. [IndexError] is not among the exceptions the function
    catches. *)
Definition get_repo_name (git : Path → list string → option string)
    (repo_path : Path) : M string :=
  r <- subprocess_run git repo_path remote_get_url_args ;;
  match r with
  | Some stdout =>
      let url := PyStr.strip stdout in
      let _ := PyStrMore.removesuffix ".git" url in
      if PyStr.contains "://" url then
        rest <- index (PyStrMore.split "://" url) 1 ;;
        path <- index (PyStr.split1 slash rest) 1 ;;
        ret path
      else if PyStr.contains "@" url then
        rest <- index (PyStr.split1 at_char url) 1 ;;
        path <- index (PyStr.split1 colon rest) 1 ;;
        ret path
      else ret (path_name repo_path)
  | None => ret (path_name repo_path)
  end.

(** The older [main.py]: the functions beside the locator. A call of
    [sys.exit] ends the run with a status. *)
Module LegacyRun.

Inductive outcome (A : Type) : Type :=
| Done (a : A)
| Exit (status : nat)
| Raised (e : exn).
Arguments Done {A} a.
Arguments Exit {A} status.
Arguments Raised {A} e.

(** The lines printed so far are the state. *)
Definition LM (A : Type) : Type := list string → outcome A * list string.

Definition lret {A} (a : A) : LM A := fun out => (Done a, out).

Definition lbind {A B} (m : LM A) (k : A → LM B) : LM B :=
  fun out =>
    match m out with
    | (Done a, out') => k a out'
    | (Exit status, out') => (Exit status, out')
    | (Raised e, out') => (Raised e, out')
    end.

Definition print (line : string) : LM unit :=
  fun out => (Done tt, out ++ [line]).

Definition sys_exit {A} (status : nat) : LM A := fun out => (Exit status, out).

Definition lindex {A} (xs : list A) (i : nat) : LM A :=
  match nth_error xs i with
  | Some x => lret x
  | None => fun out => (Raised IndexError, out)
  end.

Fixpoint lfor_each {A} (xs : list A) (body : A → LM unit) : LM unit :=
  match xs with
  | [] => lret tt
  | x :: rest => lbind (body x) (fun _ => lfor_each rest body)
  end.

Definition ESC : string := String (ascii_of_N 27) EmptyString.
Definition ANSI_HEADER : string := ESC +:+ "[1;36m".
Definition ANSI_BRANCH : string := ESC +:+ "[0;33m".
Definition ANSI_RESET : string := ESC +:+ "[0m".

Section Legacy.
Variable git : Path → list string → option string.
Variable resolve : Path → Path.
Variable home : Path.

(** [get_repo_branches]: the listing without [main] and [master]; a
    failing invocation ends the run. *)
Definition get_repo_branches (repo_path : Path) : LM (list string) :=
  match git repo_path branch_args with
  | Some stdout =>
      let branches := map PyStr.strip (PyStr.splitlines (PyStr.strip stdout)) in
      lret (List.filter (fun b => negb (str_in b ["main"; "master"])) branches)
  | None =>
      lbind (print "Error: `git` is not installed or not found in PATH.")
            (fun _ => sys_exit 1)
  end.

(** [get_repo_name] of the older file: the suffix [.git] is cut off. *)
Definition get_repo_name (repo_path : Path) : LM string :=
  match git repo_path remote_get_url_args with
  | Some stdout =>
      let url := PyStr.strip stdout in
      let url := if PyStrMore.endswith ".git" url
                 then PyStrMore.chop 4 url else url in
      if PyStr.contains "://" url then
        lbind (lindex (PyStrMore.split "://" url) 1) (fun rest =>
        lbind (lindex (PyStr.split1 slash rest) 1) (fun path =>
        lret path))
      else if PyStr.contains "@" url then
        lbind (lindex (PyStr.split1 at_char url) 1) (fun rest =>
        lbind (lindex (PyStr.split1 colon rest) 1) (fun path =>
        lret path))
      else lret (path_name repo_path)
  | None => lret (path_name repo_path)
  end.

(** The [try]/[except ValueError] around [relative_to]. *)
Definition display_path_of (repo_path : Path) : string :=
  if PyPath.is_prefix home repo_path
  then "~/" +:+ PyPath.str_rel (drop (length home) repo_path)
  else PyPath.str repo_path.

Definition report_repo (repo_path : Path) : LM unit :=
  lbind (get_repo_branches repo_path) (fun branches =>
  match branches with
  | _ :: _ =>
      let display_path := display_path_of repo_path in
      lbind (print (ANSI_HEADER +:+ "=== " +:+ display_path +:+ " ==="
                    +:+ ANSI_RESET)) (fun _ =>
      lbind (lfor_each branches
               (fun branch =>
                  print (ANSI_BRANCH +:+ "* " +:+ branch +:+ ANSI_RESET)))
            (fun _ => print EmptyString))
  | [] => lret tt
  end).

Definition find_repos_with_branches (root : Path) (fs : tree)
    (skip_hidden_dirs : bool) : LM unit :=
  let repo_paths : gset Path :=
    list_to_set (map resolve (Legacy.get_git_repos root fs skip_hidden_dirs)) in
  lfor_each (sorted repo_paths) report_repo.

End Legacy.

(** The lines the older file prints for one repository with branches. *)
Definition block (home repo_path : Path) (branches : list string)
  : list string :=
  match branches with
  | [] => []
  | _ =>
      (ANSI_HEADER +:+ "=== " +:+ display_path_of home repo_path +:+ " ==="
       +:+ ANSI_RESET)
      :: map (fun branch => ANSI_BRANCH +:+ "* " +:+ branch +:+ ANSI_RESET)
           branches
      ++ [EmptyString]
  end.

End LegacyRun.

(** ** The program over any way of running git *)

(** What [subprocess.run(..., check=True, text=True)] can meet: an output
    that decodes as text, a non-zero exit status, or an output that does
    not decode. *)
Inductive captured : Type :=
| Text (stdout : string)
| NonZero
| Undecodable.

(** The executable seen through its decodable answers. *)
Definition decoded (git : Path → list string → captured)
    (repo_path : Path) (args : list string) : option string :=
  match git repo_path args with
  | Text stdout => Some stdout
  | NonZero => None
  | Undecodable => None
  end.

(** One invocation together with the [except CalledProcessError] of its
    caller: the decoding of the output raises [UnicodeDecodeError], which
    no caller catches. *)
Definition subprocess_run_text (git : Path → list string → captured)
    (repo_path : Path) (args : list string) : M (option string) :=
  fun w =>
    let w' := World (calls w ++ [(repo_path, args)]) (stdout w) in
    match git repo_path args with
    | Text stdout => (Ok (Some stdout), w')
    | NonZero => (Ok None, w')
    | Undecodable => (Raise UnicodeDecodeError, w')
    end.

Section Runner.

(** [run repo_path args]: [Some stdout], [None] after
    [CalledProcessError], or an exception that escapes. *)
Variable run : Path → list string → M (option string).

Definition _run_git_with (repo_path : Path) (args : list string)
  : M (option string) :=
  r <- run repo_path args ;;
  ret (PyStr.strip <$> r).

Fixpoint probe_loop_with (repo_path : Path) (branches : list string)
  : M (option (option string)) :=
  match branches with
  | [] => ret None
  | branch :: rest =>
      r <- _run_git_with repo_path (show_ref_args branch) ;;
      if truthy r then ret (Some (Some branch))
      else probe_loop_with repo_path rest
  end.

Definition get_primary_branch_with (repo_path : Path) : M (option string) :=
  ref <- _run_git_with repo_path symbolic_ref_args ;;
  if truthy ref then
    ret (PyStr.removeprefix "refs/remotes/origin/" <$> ref)
  else
    output <- _run_git_with repo_path remote_show_args ;;
    found <- (if truthy output
              then head_branch_loop (PyStr.splitlines (default "" output))
              else ret None) ;;
    match found with
    | Some v => ret v
    | None =>
        found <- probe_loop_with repo_path ["main"; "master"] ;;
        match found with
        | Some v => ret v
        | None => ret None
        end
    end.

Definition get_repo_branches_with (repo_path : Path) : M (list string) :=
  r <- run repo_path branch_args ;;
  match r with
  | Some stdout => ret (map PyStr.strip (PyStr.splitlines (PyStr.strip stdout)))
  | None => ret []
  end.

Definition report_repo_with (home repo_path : Path) : M unit :=
  all_branches <- get_repo_branches_with repo_path ;;
  primary_branch <- get_primary_branch_with repo_path ;;
  let branches := non_primary all_branches primary_branch in
  match branches with
  | _ :: _ =>
      display_path <- display_path_of home repo_path ;;
      p (Styled ("=== " +:+ display_path +:+ " ===") BRIGHT_CYAN) ;;;
      for_each branches (fun branch => p (Styled ("* " +:+ branch) YELLOW)) ;;;
      p Blank
  | [] => ret tt
  end.

Definition find_repos_with_branches_with (resolve : Path → Path)
    (home root : Path) (fs : tree) (skip_hidden_dirs : bool) : M unit :=
  for_each (sorted (repo_paths resolve root fs skip_hidden_dirs))
    (report_repo_with home).

End Runner.

(** [find_repos_with_branches] from its first line on: [Path.home()]
    raises [RuntimeError] when the home directory cannot be determined,
    [home] being [None] then. *)
Definition find_repos_with_branches_text
    (git : Path → list string → captured) (resolve : Path → Path)
    (home : option Path) (root : Path) (fs : tree) (skip_hidden_dirs : bool)
  : M unit :=
  match home with
  | Some home =>
      find_repos_with_branches_with (subprocess_run_text git) resolve home
        root fs skip_hidden_dirs
  | None => raise RuntimeError
  end.

(** An executable whose output always decodes. *)
Definition as_text (git : Path → list string → option string)
    (repo_path : Path) (args : list string) : captured :=
  match git repo_path args with
  | Some stdout => Text stdout
  | None => NonZero
  end.

(** ** A degenerate answer *)

Module Edge.


End Edge.

(** ** More sample inputs *)

Module Cases.

(** A tree with a repository below a hidden directory and a nested one. *)
Definition fs : tree :=
  Dir [("work", Dir [("app", Dir [(".git", Dir []);
                                  ("third_party", Dir [(".git", Dir [])])]);
                     (".venv", Dir [("pkg", Dir [(".git", Dir [])])])]);
       ("notes", Dir [])].

Definition app : Path := ["home"; "u"; "work"; "app"].
Definition other : Path := ["home"; "u"; "other"].

(** [Sample.fs_dash] with its two directories listed the other way. *)
Definition fs_dash_swapped : tree :=
  Dir [("a-c", Dir [(".git", Dir [])]);
       ("a", Dir [("b", Dir [(".git", Dir [])])])].

(** Answers for [app] only; every invocation elsewhere fails. *)
Definition git_app (repo_path : Path) (args : list string) : option string :=
  if bool_decide (repo_path = app) then
    if bool_decide (args = branch_args)
    then Some ("main" +:+ Sample.nl +:+ "  topic " +:+ Sample.nl)
    else if bool_decide (args = show_ref_args "main")
    then Some ("9a1b2c refs/heads/main" +:+ Sample.nl)
    else if bool_decide (args = remote_get_url_args)
    then Some ("git@github.com:4mbl/gitwip.git" +:+ Sample.nl)
    else None
  else None.

(** The same answers for [app], and a remote for [other]. *)
Definition git_app_other (repo_path : Path) (args : list string)
  : option string :=
  if bool_decide (repo_path = other) then
    if bool_decide (args = remote_get_url_args)
    then Some ("https://example.com/4mbl/gitwip.git" +:+ Sample.nl)
    else Some "refs/remotes/origin/dev"
  else git_app repo_path args.


(** [Sample.git_local_master], except that the listing of [/r/a-c] has a
    branch name that does not decode. *)
Definition raw_undecodable (repo_path : Path) (args : list string)
  : captured :=
  if bool_decide (repo_path = ["r"; "a-c"]) then
    if bool_decide (args = branch_args) then Undecodable
    else as_text Sample.git_local_master repo_path args
  else as_text Sample.git_local_master repo_path args.

(** A remote URL with a host and nothing after it. *)
Definition git_bare_host (_ : Path) (args : list string) : option string :=
  if bool_decide (args = remote_get_url_args)
  then Some ("https://example.com" +:+ Sample.nl)
  else None.

End Cases.

(** * Properties *)

(** ** The scenarios of the description *)

Example strip_ex : PyStr.strip "  main " = "main".
Proof. reflexivity. Qed.

Example splitlines_ex :
  PyStr.splitlines ("a" +:+ Sample.nl +:+ Sample.nl +:+ "b" +:+ Sample.nl)
  = ["a"; ""; "b"].
Proof. reflexivity. Qed.

Example hidden_skipped :
  Gitwip.get_git_repos Sample.home Sample.fs_hidden true
  = [["home"; "u"; "proj"]].
Proof. reflexivity. Qed.

Example hidden_included :
  Gitwip.get_git_repos Sample.home Sample.fs_hidden false
  = [["home"; "u"; ".cache"; "repo"]; ["home"; "u"; "proj"]].
Proof. reflexivity. Qed.

Example report_proj :
  stdout (find_repos_with_branches Sample.git_three_branches
            Sample.resolve_id Sample.home Sample.home Sample.fs_hidden true
            world0).2
  = [Styled "=== ~/proj ===" BRIGHT_CYAN; Styled "* feature/x" YELLOW;
     Styled "* bugfix" YELLOW; Blank].
Proof. vm_compute. reflexivity. Qed.

Example report_only_master :
  find_repos_with_branches
    (fun _ args => if bool_decide (args = branch_args)
                   then Some ("master" +:+ Sample.nl)
                   else Sample.git_local_master Sample.repo args)
    Sample.resolve_id Sample.home Sample.home Sample.fs_hidden true world0
  = (Ok tt,
     with_calls world0
       [(["home"; "u"; "proj"], branch_args);
        (["home"; "u"; "proj"], symbolic_ref_args);
        (["home"; "u"; "proj"], remote_show_args);
        (["home"; "u"; "proj"], show_ref_args "main");
        (["home"; "u"; "proj"], show_ref_args "master")]).
Proof. vm_compute. reflexivity. Qed.

(** ** The order of paths *)

Section LexLaws.
Context {A : Type} (cmp : A → A → comparison) (laws : CmpLaws cmp).

Lemma lex_eq (a b : list A) : PyPath.lex cmp a b = Eq ↔ a = b.
Proof.
  revert b; induction a as [|x a IH]; intros [|y b]; simpl;
    try (split; congruence).
  destruct (cmp x y) eqn:E.
  - apply (cmp_eq _ laws) in E as ->. rewrite IH. split; congruence.
  - split; [discriminate|]. intros [= -> _].
    assert (cmp y y = Eq) by (by apply (cmp_eq _ laws)). congruence.
  - split; [discriminate|]. intros [= -> _].
    assert (cmp y y = Eq) by (by apply (cmp_eq _ laws)). congruence.
Qed.

Lemma lex_opp (a b : list A) :
  PyPath.lex cmp b a = CompOpp (PyPath.lex cmp a b).
Proof.
  revert b; induction a as [|x a IH]; intros [|y b]; simpl; try done.
  rewrite (cmp_opp _ laws x y). destruct (cmp x y); simpl; auto.
Qed.

Lemma lex_lt_trans (a b c : list A) :
  PyPath.lex cmp a b = Lt → PyPath.lex cmp b c = Lt → PyPath.lex cmp a c = Lt.
Proof.
  revert b c; induction a as [|x a IH]; intros [|y b] [|z c]; simpl;
    try done.
  destruct (cmp x y) eqn:Exy; try done.
  - apply (cmp_eq _ laws) in Exy as ->.
    destruct (cmp y z); try done. apply IH.
  - destruct (cmp y z) eqn:Eyz; try done.
    + apply (cmp_eq _ laws) in Eyz as ->. by rewrite Exy.
    + by rewrite (cmp_lt_trans _ laws x y z Exy Eyz).
Qed.

Lemma lex_laws : CmpLaws (PyPath.lex cmp).
Proof. split; [apply lex_eq | apply lex_opp | apply lex_lt_trans]. Qed.
End LexLaws.

Lemma char_compare_laws : CmpLaws PyPath.char_compare.
Proof.
  unfold PyPath.char_compare. split.
  - intros x y. rewrite N.compare_eq_iff. split; [|by intros ->].
    intros H. rewrite <- (ascii_N_embedding x), <- (ascii_N_embedding y).
    by rewrite H.
  - intros x y. apply N.compare_antisym.
  - intros x y z. rewrite !N.compare_lt_iff. apply N.lt_trans.
Qed.

(** Transport of the laws along an injection. *)
Lemma cmp_laws_inj {A B} (f : A → B) (cmp : B → B → comparison) :
  (∀ x y, f x = f y → x = y) → CmpLaws cmp →
  CmpLaws (fun x y => cmp (f x) (f y)).
Proof.
  intros Hinj laws. split.
  - intros x y. rewrite (cmp_eq _ laws). split; [apply Hinj | by intros ->].
  - intros x y. apply (cmp_opp _ laws).
  - intros x y z. apply (cmp_lt_trans _ laws).
Qed.

Lemma str_compare_laws : CmpLaws PyPath.str_compare.
Proof.
  apply (cmp_laws_inj list_ascii_of_string (PyPath.lex PyPath.char_compare)).
  - intros x y H.
    rewrite <- (string_of_list_ascii_of_string x),
            <- (string_of_list_ascii_of_string y).
    by rewrite H.
  - apply lex_laws, char_compare_laws.
Qed.

Lemma path_compare_laws : CmpLaws PyPath.compare.
Proof. apply lex_laws, str_compare_laws. Qed.

Section LeOfCmp.
Context {A : Type} (cmp : A → A → comparison) (laws : CmpLaws cmp).

Lemma cmp_le_total (x y : A) : cmp_le cmp x y ∨ cmp_le cmp y x.
Proof.
  unfold cmp_le. rewrite (cmp_opp _ laws x y).
  destruct (cmp x y); simpl; auto.
Qed.

Lemma cmp_le_trans (x y z : A) :
  cmp_le cmp x y → cmp_le cmp y z → cmp_le cmp x z.
Proof.
  unfold cmp_le. destruct (cmp x y) eqn:Exy; try done; intros _.
  - by apply (cmp_eq _ laws) in Exy as ->.
  - destruct (cmp y z) eqn:Eyz; try done; intros _.
    + apply (cmp_eq _ laws) in Eyz as <-. by rewrite Exy.
    + by rewrite (cmp_lt_trans _ laws x y z Exy Eyz).
Qed.

Lemma cmp_le_antisym (x y : A) : cmp_le cmp x y → cmp_le cmp y x → x = y.
Proof.
  unfold cmp_le. rewrite (cmp_opp _ laws x y).
  destruct (cmp x y) eqn:E; simpl; try done.
  intros _ _. by apply (cmp_eq _ laws).
Qed.
End LeOfCmp.

#[global] Instance path_le_total : Total PyPath.le.
Proof. intros p q. apply (cmp_le_total _ path_compare_laws). Qed.

#[global] Instance path_le_trans : Transitive PyPath.le.
Proof. intros p q r. apply (cmp_le_trans _ path_compare_laws). Qed.

#[global] Instance path_le_antisym : AntiSymm (=) PyPath.le.
Proof. intros p q. apply (cmp_le_antisym _ path_compare_laws). Qed.

(** ** Where the order of paths and the order of their strings agree *)

Lemma chars_app (a b : string) :
  list_ascii_of_string (a +:+ b)
  = list_ascii_of_string a ++ list_ascii_of_string b.
Proof.
  induction a as [|c a IH]; [done|].
  change (String c a +:+ b) with (String c (a +:+ b)). simpl. by rewrite IH.
Qed.

Lemma plain_above_slash (c : ascii) :
  plain_char c = true → PyPath.char_compare slash c = Lt.
Proof.
  unfold plain_char, PyPath.char_compare. intros H%N.ltb_lt.
  by apply N.compare_lt_iff.
Qed.

Lemma lex_chars_app (xs ys rest1 rest2 : list ascii) :
  forallb plain_char xs = true → forallb plain_char ys = true →
  slash_led rest1 → slash_led rest2 →
  PyPath.lex PyPath.char_compare (xs ++ rest1) (ys ++ rest2)
  = match PyPath.lex PyPath.char_compare xs ys with
    | Eq => PyPath.lex PyPath.char_compare rest1 rest2
    | c => c
    end.
Proof.
  intros Hxs Hys H1 H2. revert ys Hys.
  induction xs as [|a xs IH]; intros [|b ys] Hys; simpl in *.
  - done.
  - apply andb_true_iff in Hys as [Hb _].
    destruct rest1 as [|c rest1]; simpl; [done|]. simpl in H1. subst c.
    by rewrite (plain_above_slash b Hb).
  - apply andb_true_iff in Hxs as [Ha _].
    destruct rest2 as [|c rest2]; simpl; [done|]. simpl in H2. subst c.
    rewrite (cmp_opp _ char_compare_laws slash a).
    by rewrite (plain_above_slash a Ha).
  - apply andb_true_iff in Hxs as [_ Hxs].
    apply andb_true_iff in Hys as [_ Hys].
    destruct (PyPath.char_compare a b); [|done..]. by apply IH.
Qed.

Lemma join_cons (x y : string) (rest : list string) :
  PyStr.join "/" (x :: y :: rest) = x +:+ "/" +:+ PyStr.join "/" (y :: rest).
Proof. reflexivity. Qed.

Lemma join_chars (x : string) (rest : list string) :
  list_ascii_of_string (PyStr.join "/" (x :: rest))
  = list_ascii_of_string x ++ tail_chars rest.
Proof.
  destruct rest as [|y rest].
  - simpl. symmetry. apply app_nil_r.
  - rewrite join_cons, !chars_app. reflexivity.
Qed.

Lemma lex_join_plain (p q : Path) :
  plain_path p = true → plain_path q = true →
  PyPath.lex PyPath.char_compare
    (list_ascii_of_string (PyStr.join "/" p))
    (list_ascii_of_string (PyStr.join "/" q))
  = PyPath.compare p q.
Proof.
  unfold PyPath.compare. revert q.
  induction p as [|x p IH]; intros [|y q] Hp Hq.
  - done.
  - rewrite join_chars. simpl in Hq.
    apply andb_true_iff in Hq as [[Hy _]%andb_true_iff _].
    destruct y; [done|]. reflexivity.
  - rewrite join_chars. simpl in Hp.
    apply andb_true_iff in Hp as [[Hx _]%andb_true_iff _].
    destruct x; [done|]. reflexivity.
  - rewrite !join_chars. simpl in Hp, Hq.
    apply andb_true_iff in Hp as [[_ Hx]%andb_true_iff Hp].
    apply andb_true_iff in Hq as [[_ Hy]%andb_true_iff Hq].
    rewrite lex_chars_app; [|done|done|by destruct p|by destruct q].
    cbn [PyPath.lex].
    change (PyPath.str_compare x y)
      with (PyPath.lex PyPath.char_compare
              (list_ascii_of_string x) (list_ascii_of_string y)).
    destruct (PyPath.lex PyPath.char_compare
                (list_ascii_of_string x) (list_ascii_of_string y)); [|done..].
    destruct p as [|x' p], q as [|y' q]; try done.
    unfold tail_chars. cbn [PyPath.lex].
    replace (PyPath.char_compare slash slash) with Eq
      by (symmetry; by apply (cmp_eq _ char_compare_laws)).
    by apply IH.
Qed.

Lemma str_compare_plain (p q : Path) :
  plain_path p = true → plain_path q = true →
  PyPath.str_compare (PyPath.str p) (PyPath.str q) = PyPath.compare p q.
Proof.
  intros Hp Hq. unfold PyPath.str_compare, PyPath.str.
  rewrite !chars_app. simpl.
  replace (PyPath.char_compare "/" "/") with Eq
    by (symmetry; by apply (cmp_eq _ char_compare_laws)).
  by apply lex_join_plain.
Qed.

(** ** The locator *)

(** Induction over a directory tree, with the induction hypothesis for
    every entry of a directory. *)
Lemma tree_rect_entries (P : tree → Prop) :
  (∀ entries, Forall (fun e => P e.2) entries → P (Dir entries)) →
  P Link → P Unreadable → ∀ t, P t.
Proof.
  intros HDir HLink HUnr.
  fix IH 1. intros [entries | |]; [|exact HLink|exact HUnr].
  apply HDir. induction entries as [|[d sub] es IHes]; constructor.
  - simpl. apply IH.
  - exact IHes.
Qed.

Lemma fold_left_filtered {E} (c : E → bool) (f : E → list Path → list Path)
    (es : list E) (s0 : list Path) :
  Forall (fun e => ∀ s, f e s = s ++ f e []) es →
  fold_left (fun s e => if c e then f e s else s) es s0
  = s0 ++ flat_map (fun e => f e []) (List.filter c es).
Proof.
  intros Hacc. revert s0.
  induction Hacc as [|e es He _ IH]; intros s0; simpl.
  - by rewrite app_nil_r.
  - rewrite IH. destruct (c e); simpl; [|done].
    by rewrite He, <- app_assoc.
Qed.

Lemma fold_left_ext_in {E T} (f g : T → E → T) (es : list E) (s0 : T) :
  Forall (fun e => ∀ s, f s e = g s e) es →
  fold_left f es s0 = fold_left g es s0.
Proof.
  intros H. revert s0. induction H as [|e es He _ IH]; intros s0; simpl;
    [done|]. by rewrite He, IH.
Qed.

Lemma str_in_true (x : string) (xs : list string) :
  str_in x xs = true ↔ x ∈ xs.
Proof.
  unfold str_in. rewrite existsb_exists. split.
  - intros (y & Hy & E). apply String.eqb_eq in E as ->.
    by apply list_elem_of_In.
  - intros H. exists x. split; [by apply list_elem_of_In|apply String.eqb_refl].
Qed.

Lemma str_in_filter_keep (names : list string) :
  str_in ".git" (List.filter Gitwip.keep_dirname names) = str_in ".git" names.
Proof.
  apply eq_true_iff_eq. rewrite !str_in_true, !list_elem_of_In, filter_In.
  split; [by intros [? _]|]. intros H. by split.
Qed.

Lemma existsb_eqb_filter (c : string → bool) (d : string) (names : list string) :
  d ∈ names →
  existsb (String.eqb d) (List.filter c names) = c d.
Proof.
  intros Hd. apply eq_true_iff_eq. rewrite existsb_exists. split.
  - intros (y & Hy & E). apply String.eqb_eq in E as ->.
    by apply filter_In in Hy as [_ ?].
  - intros Hc. exists d. split; [|apply String.eqb_refl].
    apply filter_In. split; [by apply list_elem_of_In|done].
Qed.

Lemma existsb_eqb_self (d : string) (names : list string) :
  d ∈ names → existsb (String.eqb d) names = true.
Proof.
  intros Hd. apply existsb_exists. exists d.
  split; [by apply list_elem_of_In|apply String.eqb_refl].
Qed.

Lemma fold_left_keep {E T} (es : list E) (x : T) :
  fold_left (fun s _ => s) es x = x.
Proof. induction es; simpl; auto. Qed.

Lemma get_git_repos_body_eq skip dirpath dirnames git_repos :
  Gitwip.get_git_repos_body skip dirpath dirnames git_repos
  = if str_in ".git" (kept_names skip dirnames)
    then ([], git_repos ++ [dirpath])
    else (kept_names skip dirnames, git_repos).
Proof. reflexivity. Qed.

(** The walk only appends to the list it is given. *)
Lemma os_walk_acc (skip : bool) (t : tree) :
  ∀ top s,
    os_walk (Gitwip.get_git_repos_body skip) top t s
    = s ++ os_walk (Gitwip.get_git_repos_body skip) top t [].
Proof.
  induction t as [entries IH| |] using tree_rect_entries; intros top s;
    cbn [os_walk]; try by rewrite app_nil_r.
  rewrite !get_git_repos_body_eq.
  destruct (str_in ".git" (kept_names skip (map fst entries))).
  - cbn [existsb]. by rewrite !fold_left_keep.
  - assert (Hacc : Forall (fun e : string * tree => ∀ s',
             os_walk (Gitwip.get_git_repos_body skip) (PyPath.child top e.1) e.2 s'
             = s' ++ os_walk (Gitwip.get_git_repos_body skip)
                       (PyPath.child top e.1) e.2 []) entries).
    { eapply Forall_impl; [exact IH|]. intros e He s'. apply He. }
    pose proof (fold_left_filtered
                  (fun e : string * tree =>
                     existsb (String.eqb e.1) (kept_names skip (map fst entries)))
                  (fun e s => os_walk (Gitwip.get_git_repos_body skip)
                                (PyPath.child top e.1) e.2 s)
                  entries) as Hfold.
    cbv beta in Hfold. by rewrite (Hfold s Hacc), (Hfold [] Hacc).
Qed.

Lemma existsb_kept_names skip (names : list string) (d : string) :
  d ∈ names →
  existsb (String.eqb d) (kept_names skip names) = negb (excluded skip d).
Proof.
  intros Hd. unfold kept_names, excluded. destruct skip; cbn [andb negb].
  - rewrite existsb_eqb_filter by done. unfold Gitwip.keep_dirname.
    by destruct (PyStr.startswith "." d), (String.eqb d ".git").
  - by apply existsb_eqb_self.
Qed.

Lemma str_in_kept_names skip (names : list string) :
  str_in ".git" (kept_names skip names) = str_in ".git" names.
Proof. destruct skip; [apply str_in_filter_keep|done]. Qed.

(** C6. At every directory the locator first leaves out, when hidden
    directories are skipped, the subdirectories whose name starts with a
    dot other than [.git]; if [.git] is among the subdirectories it records
    the directory and nothing below it, whatever the subdirectories hold;
    otherwise its result is made of the results for the subdirectories
    that are not left out, in listing order. *)
Theorem get_git_repos_prunes (skip : bool) (root : Path)
    (entries : list (string * tree)) :
  Gitwip.get_git_repos root (Dir entries) skip
  = if str_in ".git" (map fst entries)
    then [root]
    else flat_map
           (fun e => Gitwip.get_git_repos (PyPath.child root e.1) e.2 skip)
           (List.filter (fun e => negb (excluded skip e.1)) entries).
Proof.
  unfold Gitwip.get_git_repos. cbn [os_walk].
  rewrite get_git_repos_body_eq, str_in_kept_names.
  destruct (str_in ".git" (map fst entries)).
  - cbn [existsb]. by rewrite fold_left_keep.
  - pose proof (fold_left_filtered
                  (fun e : string * tree =>
                     existsb (String.eqb e.1) (kept_names skip (map fst entries)))
                  (fun e s => os_walk (Gitwip.get_git_repos_body skip)
                                (PyPath.child root e.1) e.2 s)
                  entries []) as Hfold.
    cbv beta in Hfold. rewrite Hfold.
    + simpl. f_equal. apply filter_ext_in. intros e He.
      apply existsb_kept_names, list_elem_of_In, in_map, He.
    + apply Forall_forall. intros e _ s. apply os_walk_acc.
Qed.

(** C10. The locator of the older [main.py] and the locator of
    [src/gitwip/main.py] return the same list of repository paths for
    every root, directory tree and flag. *)
Theorem get_git_repos_legacy_eq (root : Path) (fs : tree) (skip : bool) :
  Legacy.get_git_repos root fs skip = Gitwip.get_git_repos root fs skip.
Proof.
  (* The two loop bodies are the same function, so are the two walks. *)
  unfold Legacy.get_git_repos, Gitwip.get_git_repos.
  assert (Hbody : Legacy.get_git_repos_body skip = Gitwip.get_git_repos_body skip)
    by reflexivity.
  by rewrite Hbody.
Qed.

(** ** Running the monad *)

Lemma bind_ok {A B} (m : M A) (k : A → M B) (w w' : world) (v : A) :
  m w = (Ok v, w') → bind m k w = k v w'.
Proof. unfold bind. by intros ->. Qed.

Lemma with_calls_nil w : with_calls w [] = w.
Proof. destruct w. unfold with_calls. simpl. by rewrite app_nil_r. Qed.

Lemma with_calls_app w cs cs' :
  with_calls (with_calls w cs) cs' = with_calls w (cs ++ cs').
Proof. unfold with_calls. simpl. by rewrite app_assoc. Qed.

Section Resolver.
Variable git : Path → list string → option string.

Lemma run_git_at repo args w :
  _run_git git repo args w
  = (Ok (answer git repo args), with_calls w [(repo, args)]).
Proof. reflexivity. Qed.

(** ** Strings *)

Lemma append_cons (x : ascii) (a b : string) :
  String x a +:+ b = String x (a +:+ b).
Proof. reflexivity. Qed.

Lemma append_assoc (a b c : string) : a +:+ b +:+ c = (a +:+ b) +:+ c.
Proof.
  induction a as [|x a IH]; [done|]. by rewrite !append_cons, IH.
Qed.

Lemma startswith_app (p s : string) :
  PyStr.startswith p s = true → ∃ r, s = p +:+ r.
Proof.
  revert s; induction p as [|a p IH]; intros s; simpl.
  - intros _. by exists s.
  - destruct s as [|b s]; [done|]. intros [Hab Hps]%andb_true_iff.
    apply Ascii.eqb_eq in Hab as ->. destruct (IH _ Hps) as [r ->].
    by exists r.
Qed.

Lemma removeprefix_app (p r : string) : PyStr.removeprefix p (p +:+ r) = r.
Proof.
  unfold PyStr.removeprefix.
  assert (H : PyStr.startswith p (p +:+ r) = true).
  { induction p as [|a p IH]; simpl; [done|]. by rewrite Ascii.eqb_refl. }
  rewrite H. clear H. induction p as [|a p IH]; simpl; [done|]. exact IH.
Qed.

Lemma contains_app (needle s : string) :
  PyStr.contains needle s = true → ∃ l r, s = l +:+ needle +:+ r.
Proof.
  induction s as [|c s IH]; simpl.
  - rewrite orb_false_r. intros [r ->]%startswith_app. by exists "", r.
  - intros [H|H]%orb_true_iff.
    + apply startswith_app in H as [r ->]. by exists "", r.
    + destruct (IH H) as (l & r & ->). by exists (String c l), r.
Qed.

(** The text after the first occurrence of a separator is the second
    element of the split. *)
Lemma split1_from_after (sep : ascii) (cur s : string) :
  nth_error (PyStr.split1_from sep cur s) 1 = after_sep sep s.
Proof.
  revert cur; induction s as [|c s IH]; intros cur; simpl; [done|].
  destruct (Ascii.eqb c sep); [done|apply IH].
Qed.

Lemma after_sep_Some (sep : ascii) (s a : string) :
  after_sep sep s = Some a →
  ∃ b, s = b +:+ String sep a ∧ ¬ In sep (list_ascii_of_string b).
Proof.
  revert a; induction s as [|c s IH]; intros a; simpl; [done|].
  destruct (Ascii.eqb c sep) eqn:E.
  - apply Ascii.eqb_eq in E as ->. intros [= ->]. exists "". by split; [|intros []].
  - intros (b & -> & Hb)%IH. exists (String c b). split; [done|].
    simpl. intros [->|?]; [|done]. by rewrite Ascii.eqb_refl in E.
Qed.

Lemma after_sep_first (sep : ascii) (b a : string) :
  ¬ In sep (list_ascii_of_string b) →
  after_sep sep (b +:+ String sep a) = Some a.
Proof.
  induction b as [|c b IH]; intros Hb.
  - change (after_sep sep (String sep a) = Some a).
    cbn [after_sep]. by rewrite Ascii.eqb_refl.
  - rewrite append_cons. cbn [after_sep].
    destruct (Ascii.eqb c sep) eqn:E.
    + apply Ascii.eqb_eq in E as ->. destruct Hb. by left.
    + apply IH. intros H. apply Hb. by right.
Qed.

Lemma after_sep_app (sep : ascii) (l r : string) :
  is_Some (after_sep sep (l +:+ String sep r)).
Proof.
  induction l as [|c l IH]; simpl.
  - rewrite Ascii.eqb_refl. by eexists.
  - destruct (Ascii.eqb c sep); [by eexists|exact IH].
Qed.

Lemma marker_has_colon (line : string) :
  PyStr.contains "HEAD branch:" line = true →
  is_Some (after_sep colon line).
Proof.
  intros (l & r & ->)%contains_app.
  change ("HEAD branch:" +:+ r) with ("HEAD branch" +:+ String colon r).
  rewrite append_assoc. apply after_sep_app.
Qed.

(** The loop over the lines of [remote show origin] returns at the
    first line with the marker and never fails on it. *)
Lemma head_branch_loop_run (lines : list string) (w : world) :
  head_branch_loop lines w = (Ok (Some <$> head_branch lines), w).
Proof.
  unfold head_branch.
  induction lines as [|line lines IH]; simpl; [done|].
  destruct (PyStr.contains "HEAD branch:" line) eqn:E; [|exact IH].
  destruct (marker_has_colon _ E) as [a Ha].
  unfold index, PyStr.split1. rewrite split1_from_after, Ha. by simpl.
Qed.

Lemma head_branch_found (lines : list string) (line : string) :
  List.find (PyStr.contains "HEAD branch:") lines = Some line →
  ∃ before after,
    line = before +:+ String colon after
    ∧ ¬ In colon (list_ascii_of_string before)
    ∧ head_branch lines = Some (PyStr.strip after).
Proof.
  intros Hfind. unfold head_branch. rewrite Hfind.
  apply find_some in Hfind as [_ Hmark].
  destruct (marker_has_colon _ Hmark) as [after Hafter].
  destruct (after_sep_Some _ _ _ Hafter) as (before & -> & Hbefore).
  exists before, after. by rewrite Hafter.
Qed.

Lemma probe_loop_main_master (repo : Path) (w : world) :
  probe_loop git repo ["main"; "master"] w =
    if local_branch_exists git repo "main" then
      (Ok (Some (Some "main")), with_calls w [(repo, show_ref_args "main")])
    else if local_branch_exists git repo "master" then
      (Ok (Some (Some "master")),
       with_calls w [(repo, show_ref_args "main");
                     (repo, show_ref_args "master")])
    else
      (Ok None,
       with_calls w [(repo, show_ref_args "main");
                     (repo, show_ref_args "master")]).
Proof.
  unfold local_branch_exists. cbn [probe_loop].
  rewrite (bind_ok _ _ _ _ _ (run_git_at repo _ _)).
  destruct (truthy (answer git repo (show_ref_args "main"))); [done|].
  rewrite (bind_ok _ _ _ _ _ (run_git_at repo _ _)), with_calls_app.
  by destruct (truthy (answer git repo (show_ref_args "master"))).
Qed.

(** The resolver, strategy by strategy: its result and the invocations
    it makes, in order. It never raises. *)
Lemma get_primary_branch_run (repo : Path) (w : world) :
  get_primary_branch git repo w =
    let sym := (repo, symbolic_ref_args) in
    let rem := (repo, remote_show_args) in
    let main := (repo, show_ref_args "main") in
    let master := (repo, show_ref_args "master") in
    if truthy (answer git repo symbolic_ref_args) then
      (Ok (PyStr.removeprefix remote_prefix
             <$> answer git repo symbolic_ref_args),
       with_calls w [sym])
    else
      match (if truthy (answer git repo remote_show_args)
             then head_branch
                    (PyStr.splitlines
                       (default "" (answer git repo remote_show_args)))
             else None) with
      | Some name => (Ok (Some name), with_calls w [sym; rem])
      | None =>
          if local_branch_exists git repo "main" then
            (Ok (Some "main"), with_calls w [sym; rem; main])
          else if local_branch_exists git repo "master" then
            (Ok (Some "master"), with_calls w [sym; rem; main; master])
          else (Ok None, with_calls w [sym; rem; main; master])
      end.
Proof.
  unfold get_primary_branch, local_branch_exists.
  rewrite (bind_ok _ _ _ _ _ (run_git_at repo symbolic_ref_args w)).
  destruct (truthy (answer git repo symbolic_ref_args)); [done|].
  rewrite (bind_ok _ _ _ _ _ (run_git_at repo remote_show_args _)).
  rewrite with_calls_app.
  set (found := if truthy (answer git repo remote_show_args)
                then head_branch _ else None).
  assert (Hfound : ∀ w',
    (if truthy (answer git repo remote_show_args)
     then head_branch_loop
            (PyStr.splitlines (default "" (answer git repo remote_show_args)))
     else ret None) w' = (Ok (Some <$> found), w')).
  { intros w'. unfold found.
    destruct (truthy (answer git repo remote_show_args)); [|done].
    apply head_branch_loop_run. }
  rewrite (bind_ok _ _ _ _ _ (Hfound _)).
  destruct found as [name|]; [done|]. cbn [fmap option_fmap option_map].
  unfold bind at 1. rewrite probe_loop_main_master, !with_calls_app.
  unfold local_branch_exists.
  destruct (truthy (answer git repo (show_ref_args "main"))); [done|].
  by destruct (truthy (answer git repo (show_ref_args "master"))).
Qed.

End Resolver.

Lemma append_nil_r (s : string) : s +:+ "" = s.
Proof.
  induction s as [|c s IH]; [done|]. by rewrite append_cons, IH.
Qed.

Lemma drop_append (a b : string) : PyStr.drop (String.length a) (a +:+ b) = b.
Proof. induction a as [|c a IH]; [done|]. by rewrite append_cons. Qed.



(** ** The resolver *)

(** C1. When the query of [refs/remotes/origin/HEAD] yields a non-empty
    string, the resolver returns that string with the prefix
    [refs/remotes/origin/] removed, and the query is the only invocation
    it makes: no later strategy is attempted. *)
Theorem origin_head_wins (git : Path → list string → option string)
    (repo : Path) (w : world) (ref : string) :
  answer git repo symbolic_ref_args = Some ref →
  ref ≠ "" →
  get_primary_branch git repo w
  = (Ok (Some (PyStr.removeprefix remote_prefix ref)),
     with_calls w [(repo, symbolic_ref_args)])
  ∧ (∀ name, ref = remote_prefix +:+ name →
             PyStr.removeprefix remote_prefix ref = name)
  ∧ (PyStr.startswith remote_prefix ref = false →
     PyStr.removeprefix remote_prefix ref = ref).
Proof.
  intros Href Hne. split; [|split].
  - rewrite get_primary_branch_run. cbv zeta. rewrite Href.
    destruct ref; [done|]. reflexivity.
  - intros name ->. apply removeprefix_app.
  - intros Hno. unfold PyStr.removeprefix. by rewrite Hno.
Qed.

Lemma origin_head_wins_witness :
  answer Sample.git_origin_head Sample.repo symbolic_ref_args
  = Some "refs/remotes/origin/main"
  ∧ get_primary_branch Sample.git_origin_head Sample.repo world0
    = (Ok (Some "main"), with_calls world0 [(Sample.repo, symbolic_ref_args)]).
Proof.
  split; [reflexivity|].
  apply (origin_head_wins Sample.git_origin_head Sample.repo world0
           "refs/remotes/origin/main"); [reflexivity|discriminate].
Defined.




Lemma local_branch_exists_exit (git : Path → list string → option string)
    (repo : Path) (name : string) :
  (∀ out, git repo (show_ref_args name) = Some out → PyStr.strip out ≠ "") →
  (local_branch_exists git repo name = true
   ↔ git repo (show_ref_args name) ≠ None).
Proof.
  intros Hprints. unfold local_branch_exists, answer.
  destruct (git repo (show_ref_args name)) as [out|]; simpl.
  - specialize (Hprints out eq_refl).
    destruct (PyStr.strip out); [done|]. by split.
  - split; [done|]. by intros [].
Qed.

(** C5. When the two remote-based strategies yield no result, the
    resolver probes [main] and then [master] and returns the first of the
    two that exists as a verifiable local reference; [master] is probed
    only when [main] does not exist. When neither exists it returns
    [None], a normal result and not an exception. A reference exists when
    [show-ref --verify] resolves it and prints it; as git prints every
    reference it resolves, that is when the probe exits with status
    zero. *)
Theorem probes_main_then_master (git : Path → list string → option string)
    (repo : Path) (w : world) :
  truthy (answer git repo symbolic_ref_args) = false →
  (∀ output, answer git repo remote_show_args = Some output →
             List.find (PyStr.contains "HEAD branch:")
               (PyStr.splitlines output) = None) →
  get_primary_branch git repo w
  = (Ok (if local_branch_exists git repo "main" then Some "main"
         else if local_branch_exists git repo "master" then Some "master"
         else None),
     with_calls w
       ([(repo, symbolic_ref_args); (repo, remote_show_args);
         (repo, show_ref_args "main")]
        ++ if local_branch_exists git repo "main" then []
           else [(repo, show_ref_args "master")]))
  ∧ (∀ name,
       (∀ out, git repo (show_ref_args name) = Some out →
               PyStr.strip out ≠ "") →
       (local_branch_exists git repo name = true
        ↔ git repo (show_ref_args name) ≠ None)).
Proof.
  intros Hsym Hrem. split; [|apply local_branch_exists_exit].
  rewrite get_primary_branch_run. cbv zeta. rewrite Hsym.
  assert (Hnone :
    (if truthy (answer git repo remote_show_args)
     then head_branch
            (PyStr.splitlines (default "" (answer git repo remote_show_args)))
     else None) = None).
  { destruct (answer git repo remote_show_args) as [output|] eqn:E; [|done].
    destruct (truthy (Some output)); [|done].
    unfold head_branch. change (default "" (Some output)) with output.
    by rewrite (Hrem output). }
  rewrite Hnone.
  destruct (local_branch_exists git repo "main"); [done|].
  by destruct (local_branch_exists git repo "master").
Qed.

Lemma probes_main_then_master_witness :
  local_branch_exists Sample.git_local_master Sample.repo "main" = false ∧
  get_primary_branch Sample.git_local_master Sample.repo world0
  = (Ok (Some "master"),
     with_calls world0
       [(Sample.repo, symbolic_ref_args); (Sample.repo, remote_show_args);
        (Sample.repo, show_ref_args "main");
        (Sample.repo, show_ref_args "master")]).
Proof.
  split; [reflexivity|].
  destruct (probes_main_then_master Sample.git_local_master Sample.repo world0)
    as [Hrun _]; [reflexivity| |rewrite Hrun; reflexivity].
  intros output H. vm_compute in H. discriminate H.
Defined.

(** ** The report builder *)

Section Report.
Variable git : Path → list string → option string.
Variable resolve : Path → Path.
Variable home : Path.

Lemma get_repo_branches_run (repo : Path) (w : world) :
  get_repo_branches git repo w
  = (Ok (listing git repo), with_calls w [(repo, branch_args)]).
Proof.
  unfold listing, eval, get_repo_branches, bind, subprocess_run. simpl.
  by destruct (git repo branch_args).
Qed.

Lemma get_primary_branch_frame (repo : Path) (w : world) :
  get_primary_branch git repo w
  = (Ok (primary git repo), with_calls w (primary_calls git repo)).
Proof.
  unfold primary, primary_calls, eval.
  rewrite !get_primary_branch_run. cbv zeta.
  repeat match goal with
         | |- context [if ?c then _ else _] => destruct c
         | |- context [match ?c with Some _ => _ | None => _ end] =>
             destruct c
         end; reflexivity.
Qed.

Lemma is_prefix_app (a b : list string) :
  PyPath.is_prefix a b = true ↔ ∃ rel, b = a ++ rel.
Proof.
  revert b; induction a as [|x a IH]; intros b; simpl.
  - split; [by exists b|done].
  - destruct b as [|y b].
    + split; [done|]. by intros [rel ?].
    + rewrite andb_true_iff, String.eqb_eq, IH. split.
      * intros [-> [rel ->]]. by exists rel.
      * intros [rel [= -> ->]]. split; [done|by exists rel].
Qed.

Lemma display_path_of_run (repo : Path) (w : world) :
  display_path_of home repo w
  = (Ok (if PyPath.is_prefix home repo
         then "~/" +:+ PyPath.str_rel (drop (length home) repo)
         else PyPath.str repo),
     w).
Proof.
  unfold display_path_of, try_except, relative_to, bind.
  by destruct (PyPath.is_prefix home repo).
Qed.

Lemma display_path_of_frame (repo : Path) (w : world) :
  display_path_of home repo w = (Ok (display home repo), w).
Proof.
  unfold display, eval. rewrite !display_path_of_run.
  by destruct (PyPath.is_prefix home repo).
Qed.

Lemma print_branches_run (branches : list string) (w : world) :
  for_each branches (fun branch => p (Styled ("* " +:+ branch) YELLOW)) w
  = (Ok tt,
     World (calls w)
       (stdout w
        ++ map (fun branch => Styled ("* " +:+ branch) YELLOW) branches)).
Proof.
  revert w; induction branches as [|b bs IH]; intros [cs out]; simpl.
  - unfold ret. by rewrite app_nil_r.
  - unfold bind, p at 1. simpl. rewrite IH. simpl.
    by rewrite <- app_assoc.
Qed.

(** One turn of the report loop. *)
Lemma report_repo_run (repo : Path) (w : world) :
  report_repo git home repo w
  = (Ok tt,
     World (calls w ++ repo_calls git repo)
           (stdout w ++ block git home repo)).
Proof.
  unfold report_repo, block, repo_calls.
  rewrite (bind_ok _ _ _ _ _ (get_repo_branches_run repo w)).
  rewrite (bind_ok _ _ _ _ _ (get_primary_branch_frame repo _)).
  rewrite with_calls_app. cbv zeta.
  destruct (non_primary (listing git repo) (primary git repo))
    as [|b bs].
  - unfold ret, with_calls. simpl. by rewrite app_nil_r.
  - rewrite (bind_ok _ _ _ _ _ (display_path_of_frame repo _)).
    unfold bind at 1, p at 1. unfold bind at 1.
    rewrite print_branches_run. unfold p, with_calls, render. simpl.
    by rewrite <- !app_assoc.
Qed.

(** The whole loop: the traces of the repositories, one after the
    other, in the order of the list. *)
Lemma report_loop_run (repos : list Path) (w : world) :
  for_each repos (report_repo git home) w
  = (Ok tt,
     World (calls w ++ flat_map (repo_calls git) repos)
           (stdout w ++ flat_map (block git home) repos)).
Proof.
  revert w; induction repos as [|r rs IH]; intros w.
  - destruct w. unfold for_each, ret. simpl. by rewrite !app_nil_r.
  - cbn [for_each flat_map].
    rewrite (bind_ok _ _ _ _ _ (report_repo_run r w)), IH. simpl.
    by rewrite <- !app_assoc.
Qed.

End Report.

(** C2. The report loop keeps, in listing order, exactly the listed
    branch names that differ from the resolved primary branch; when the
    resolution is absent it keeps them all. The branch lines printed for a
    repository are those of the names kept. *)
Theorem non_primary_exact (git : Path → list string → option string)
    (home repo : Path) (w : world) (all_branches : list string) :
  (∀ name, non_primary all_branches (Some name)
           = List.filter (fun b => negb (String.eqb b name)) all_branches)
  ∧ non_primary all_branches None = all_branches
  ∧ (∀ b primary_branch,
       b ∈ non_primary all_branches primary_branch
       ↔ b ∈ all_branches ∧ primary_branch ≠ Some b)
  ∧ stdout (report_repo git home repo w).2
    = stdout w
      ++ match non_primary (listing git repo) (primary git repo) with
         | [] => []
         | kept =>
             Styled ("=== " +:+ display home repo +:+ " ===") BRIGHT_CYAN
             :: map (fun b => Styled ("* " +:+ b) YELLOW) kept ++ [Blank]
         end.
Proof.
  split; [done|]. split.
  { unfold non_primary. simpl. induction all_branches; simpl; congruence. }
  split.
  - intros b primary_branch. unfold non_primary.
    rewrite !list_elem_of_In, filter_In.
    destruct primary_branch as [name|]; simpl.
    + rewrite negb_true_iff, String.eqb_neq. split.
      * intros [? Hne]. split; [done|]. intros [= ->]. by apply Hne.
      * intros [? Hne]. split; [done|]. intros ->. by apply Hne.
    + split; [by intros [? _]|by intros [? _]].
  - by rewrite report_repo_run.
Qed.



(** C8, as stated, fails where the repository root is the home directory
    itself: relativization succeeds there with the relative path [.], the
    header shows [~/.] and not the absolute path. *)
Lemma display_home_root_counterexample :
  display_path_of Sample.home Sample.home world0 = (Ok "~/.", world0)
  ∧ PyPath.str Sample.home = "/home/u"
  ∧ display_path_of Sample.home Sample.home world0
    ≠ (Ok (PyPath.str Sample.home), world0).
Proof. split; [reflexivity|]. split; [reflexivity|]. discriminate. Qed.

(** C8, amended. The display path is always computed, without an
    exception and without any other effect. A repository path that is the
    home directory or lies below it is shown relative to the home
    directory after [~/], the home directory itself as [~/.]; for every
    other path relativization raises [ValueError], which is caught, and the
    absolute path is shown. *)
Theorem display_path_total (home repo : Path) (w : world) :
  (∃ shown, display_path_of home repo w = (Ok shown, w))
  ∧ (∀ rel, repo = home ++ rel →
            display_path_of home repo w
            = (Ok ("~/" +:+ PyPath.str_rel rel), w))
  ∧ display_path_of home home w = (Ok "~/.", w)
  ∧ ((∀ rel, repo ≠ home ++ rel) →
     relative_to repo home w = (Raise ValueError, w)
     ∧ display_path_of home repo w = (Ok (PyPath.str repo), w)).
Proof.
  split; [eexists; apply display_path_of_run|]. split; [|split].
  - intros rel ->. rewrite display_path_of_run.
    assert (H : PyPath.is_prefix home (home ++ rel) = true)
      by (apply is_prefix_app; by exists rel).
    by rewrite H, drop_app_length.
  - rewrite display_path_of_run.
    assert (H : PyPath.is_prefix home home = true)
      by (apply is_prefix_app; exists []; by rewrite app_nil_r).
    by rewrite H, drop_all.
  - intros Hout.
    assert (H : PyPath.is_prefix home repo = false).
    { apply not_true_is_false. intros [rel ->]%is_prefix_app.
      by apply (Hout rel). }
    rewrite display_path_of_run. unfold relative_to. by rewrite H.
Qed.

Lemma display_path_total_witness :
  display_path_of Sample.home ["home"; "u"; "proj"] world0
  = (Ok "~/proj", world0)
  ∧ display_path_of Sample.home ["srv"; "proj"] world0
    = (Ok "/srv/proj", world0).
Proof.
  split.
  - destruct (display_path_total Sample.home ["home"; "u"; "proj"] world0)
      as (_ & Hbelow & _ & _).
    apply (Hbelow ["proj"]). reflexivity.
  - destruct (display_path_total Sample.home ["srv"; "proj"] world0)
      as (_ & _ & _ & Hout).
    apply Hout. intros rel H. discriminate H.
Defined.

(** ** The order and the uniqueness of the repositories *)

(** C3, as stated, fails where a directory name has a character below
    the slash: [/r/a/b] comes before [/r/a-c] in the report loop, and after
    it in the order of the strings. *)
Lemma sorted_by_str_counterexample :
  sorted (repo_paths Sample.resolve_id Sample.root Sample.fs_dash true)
  = [["r"; "a"; "b"]; ["r"; "a-c"]]
  ∧ sorted_by_str (repo_paths Sample.resolve_id Sample.root Sample.fs_dash true)
    = [["r"; "a-c"]; ["r"; "a"; "b"]]
  ∧ map PyPath.str
      (sorted (repo_paths Sample.resolve_id Sample.root Sample.fs_dash true))
    = ["/r/a/b"; "/r/a-c"]
  ∧ stdout (find_repos_with_branches Sample.git_local_master
              Sample.resolve_id Sample.home Sample.root Sample.fs_dash true
              world0).2
    = [Styled "=== /r/a/b ===" BRIGHT_CYAN; Styled "* wip" YELLOW; Blank;
       Styled "=== /r/a-c ===" BRIGHT_CYAN; Styled "* wip" YELLOW; Blank]
  ∧ sorted (repo_paths Sample.resolve_id Sample.root Sample.fs_dash true)
    ≠ sorted_by_str
        (repo_paths Sample.resolve_id Sample.root Sample.fs_dash true).
Proof. vm_compute. repeat split. discriminate. Qed.

(** C3, amended. The report loop takes the repositories in ascending
    order of [pathlib]'s comparison of paths, which compares the sequences
    of components, each component as a string; the list it runs through is
    a rearrangement of the set of resolved paths, and the invocations and
    the printed lines of the whole run are those of the repositories, one
    repository after the other in that order. This order is the order of
    the path strings for paths whose components have no character below
    the slash. *)
Theorem report_order (git : Path → list string → option string)
    (resolve : Path → Path) (home root : Path) (fs : tree) (skip : bool)
    (w : world) :
  let repos := sorted (repo_paths resolve root fs skip) in
  StronglySorted PyPath.le repos
  ∧ repos ≡ₚ elements (repo_paths resolve root fs skip)
  ∧ (∀ p q, PyPath.le p q ↔ PyPath.lex PyPath.str_compare p q ≠ Gt)
  ∧ (∀ p q, plain_path p = true → plain_path q = true →
            (PyPath.le p q ↔ PyPath.str_le p q))
  ∧ find_repos_with_branches git resolve home root fs skip w
    = (Ok tt,
       World (calls w ++ flat_map (repo_calls git) repos)
             (stdout w ++ flat_map (block git home) repos)).
Proof.
  intros repos. split; [apply StronglySorted_merge_sort; apply _|].
  split; [apply merge_sort_Permutation|]. split.
  - intros p0 q. unfold PyPath.le, PyPath.leb, PyPath.compare.
    by destruct (PyPath.lex PyPath.str_compare p0 q).
  - split; [|apply report_loop_run].
    intros p0 q Hp Hq. unfold PyPath.le, PyPath.leb, PyPath.str_le, PyPath.str_leb.
    by rewrite str_compare_plain.
Qed.

Lemma report_order_witness :
  PyPath.le ["r"; "a"; "b"] ["r"; "ac"]
  ↔ PyPath.str_le ["r"; "a"; "b"] ["r"; "ac"].
Proof.
  pose proof (report_order Sample.git_failing Sample.resolve_id Sample.home
                Sample.root Sample.fs_dash true world0) as H.
  cbv zeta in H. destruct H as (_ & _ & _ & Hagree & _).
  apply Hagree; reflexivity.
Defined.

(** C9. The list handed to the report loop has no duplicates: it holds
    each canonical path of a located repository once, however many located
    paths resolve to it, and the run prints one entry per element of that
    list. *)
Theorem repo_paths_unique (git : Path → list string → option string)
    (resolve : Path → Path) (home root : Path) (fs : tree) (skip : bool)
    (w : world) :
  let repos := sorted (repo_paths resolve root fs skip) in
  NoDup repos
  ∧ (∀ path, path ∈ repos
             ↔ ∃ found, found ∈ Gitwip.get_git_repos root fs skip
                        ∧ resolve found = path)
  ∧ stdout (find_repos_with_branches git resolve home root fs skip w).2
    = stdout w ++ flat_map (block git home) repos.
Proof.
  intros repos. split; [|split].
  - unfold repos, sorted. rewrite merge_sort_Permutation.
    apply NoDup_elements.
  - intros path. unfold repos, sorted, repo_paths.
    rewrite merge_sort_Permutation, elem_of_elements, elem_of_list_to_set.
    rewrite list_elem_of_In, in_map_iff. split.
    + intros (found & Hres & Hin). exists found.
      by rewrite list_elem_of_In.
    + intros (found & Hin & Hres). exists found.
      by rewrite <- list_elem_of_In.
  - unfold find_repos_with_branches. by rewrite report_loop_run.
Qed.

(** * More of the code *)

(** ** The locator: what it reports and what it leaves out *)

(** One step of the locator at a directory. *)
Lemma get_git_repos_step (skip : bool) (root : Path)
    (entries : list (string * tree)) :
  Gitwip.get_git_repos root (Dir entries) skip
  = if str_in ".git" (map fst entries)
    then [root]
    else flat_map
           (fun e => Gitwip.get_git_repos (PyPath.child root e.1) e.2 skip)
           (List.filter (fun e => negb (excluded skip e.1)) entries).
Proof.
  unfold Gitwip.get_git_repos at 1. cbn [os_walk].
  rewrite get_git_repos_body_eq, str_in_kept_names.
  destruct (str_in ".git" (map fst entries)).
  - cbn [existsb]. by rewrite fold_left_keep.
  - rewrite (fold_left_filtered
               (fun e : string * tree =>
                  existsb (String.eqb e.1) (kept_names skip (map fst entries)))
               (fun e s => os_walk (Gitwip.get_git_repos_body skip)
                             (PyPath.child root e.1) e.2 s)).
    + simpl. f_equal. apply filter_ext_in. intros e He.
      apply existsb_kept_names, list_elem_of_In, in_map, He.
    + apply Forall_forall. intros e _ s. apply os_walk_acc.
Qed.

Lemma located_way (skip : bool) (fs : tree) :
  ∀ root p, In p (Gitwip.get_git_repos root fs skip) →
            ∃ rel, p = root ++ rel ∧ repo_way skip fs rel.
Proof.
  induction fs as [entries IH| |] using tree_rect_entries; intros root p;
    [|by intros []..].
  rewrite get_git_repos_step.
  destruct (str_in ".git" (map fst entries)) eqn:Hgit.
  - intros [<-|[]]. exists []. split; [by rewrite app_nil_r|by constructor].
  - intros (e & He & Hp)%in_flat_map. apply filter_In in He as [He Hkeep].
    rewrite Forall_forall in IH.
    destruct (IH e (proj2 (list_elem_of_In _ _) He) _ _ Hp) as (rel & -> & Hway).
    exists (e.1 :: rel). split.
    + unfold PyPath.child. by rewrite <- app_assoc.
    + apply (way_below skip entries e.1 e.2 rel); try done.
      * by destruct e.
      * by apply negb_true_iff.
Qed.

Lemma way_located (skip : bool) (fs : tree) (rel : list string) :
  repo_way skip fs rel →
  ∀ root, In (root ++ rel) (Gitwip.get_git_repos root fs skip).
Proof.
  induction 1 as [entries Hgit|entries d sub rel Hgit Hin Hkeep _ IH];
    intros root; rewrite get_git_repos_step, Hgit.
  - rewrite app_nil_r. by left.
  - apply in_flat_map. exists (d, sub). split.
    + apply filter_In. split; [done|]. simpl. by rewrite Hkeep.
    + simpl. specialize (IH (PyPath.child root d)).
      unfold PyPath.child in *. by rewrite <- app_assoc in IH.
Qed.

(** X1. The locator reports exactly the directories that hold [.git] and
    are reached from the root through directories that hold none, by
    names that are not excluded. *)
Theorem located_iff_way (skip : bool) (root : Path) (fs : tree) (p : Path) :
  p ∈ Gitwip.get_git_repos root fs skip
  ↔ ∃ rel, p = root ++ rel ∧ repo_way skip fs rel.
Proof.
  rewrite list_elem_of_In. split.
  - apply located_way.
  - intros (rel & -> & Hway). by apply way_located.
Qed.

Lemma way_not_hidden (fs : tree) (rel : list string) :
  repo_way true fs rel →
  Forall (fun d => PyStr.startswith "." d = false) rel.
Proof.
  induction 1 as [|entries d sub rel Hgit Hin Hkeep _ IH]; constructor;
    [|done].
  unfold excluded in Hkeep. cbn [andb] in Hkeep.
  destruct (PyStr.startswith "." d); [|done]. cbn [andb] in Hkeep.
  apply negb_false_iff, String.eqb_eq in Hkeep as ->.
  assert (Hin' : str_in ".git" (map fst entries) = true).
  { apply str_in_true, list_elem_of_In, in_map_iff. by exists (".git", sub). }
  congruence.
Qed.

(** X2. With hidden directories skipped, no reported path has, below the
    root, a component that starts with a dot: nothing is reported from
    inside a hidden directory, nor from inside a [.git] directory. *)
Theorem located_not_hidden (root : Path) (fs : tree) (p : Path) :
  p ∈ Gitwip.get_git_repos root fs true →
  ∃ rel, p = root ++ rel
         ∧ Forall (fun d => PyStr.startswith "." d = false) rel.
Proof.
  intros Hp%list_elem_of_In.
  destruct (located_way true fs root p Hp) as (rel & -> & Hway).
  exists rel. split; [done|]. by apply (way_not_hidden fs).
Qed.

Lemma located_not_hidden_witness :
  ∃ rel, Cases.app = Sample.home ++ rel
         ∧ Forall (fun d => PyStr.startswith "." d = false) rel.
Proof.
  apply (located_not_hidden Sample.home Cases.fs Cases.app).
  apply list_elem_of_In. vm_compute. by left.
Defined.

(** X3. Skipping hidden directories only removes repositories: what is
    reported with the flag set is reported without it, in the same
    order. *)
Theorem located_skip_sublist (root : Path) (fs : tree) :
  Gitwip.get_git_repos root fs true
    `sublist_of` Gitwip.get_git_repos root fs false.
Proof.
  revert root.
  induction fs as [entries IH| |] using tree_rect_entries; intros root;
    [|done..].
  rewrite !get_git_repos_step.
  destruct (str_in ".git" (map fst entries)); [done|].
  induction IH as [|e es He _ IHes]; [done|].
  cbn [List.filter excluded andb negb flat_map].
  destruct (negb (excluded true e.1)); cbn [flat_map].
  - by apply sublist_app.
  - by apply sublist_inserts_l.
Qed.

Lemma distinct_names_Dir (entries : list (string * tree)) :
  distinct_names (Dir entries) = true →
  NoDup (map fst entries)
  ∧ ∀ e, In e entries → distinct_names e.2 = true.
Proof.
  cbn [distinct_names]. intros [Hnd Hall]%andb_true_iff. split.
  - by apply bool_decide_eq_true in Hnd.
  - intros e He. by apply (proj1 (forallb_forall _ _) Hall).
Qed.

Lemma same_name_same_entry (entries : list (string * tree))
    (d : string) (sub sub' : tree) :
  NoDup (map fst entries) →
  In (d, sub) entries → In (d, sub') entries → sub = sub'.
Proof.
  induction entries as [|e es IH]; [by intros _ []|].
  cbn [map]. intros [Hnotin Hnd]%NoDup_cons [->|H1] [Heq|H2].
  - by injection Heq.
  - destruct Hnotin. apply list_elem_of_In, in_map_iff. by exists (d, sub').
  - subst e. destruct Hnotin. apply list_elem_of_In, in_map_iff.
    by exists (d, sub).
  - by apply IH.
Qed.

Lemma way_prefix_free (skip : bool) (fs : tree) (rel : list string) :
  repo_way skip fs rel →
  ∀ ext, distinct_names fs = true → repo_way skip fs (rel ++ ext) → ext = [].
Proof.
  induction 1 as [entries Hgit|entries d sub rel Hgit Hin Hkeep _ IH];
    intros ext Hdist Hway.
  - inversion Hway; [done|congruence].
  - apply distinct_names_Dir in Hdist as [Hnd Hsub].
    inversion Hway as [|entries' d' sub' rel' _ Hin' _ Hway' Heq1 Heq2].
    subst entries' d' rel'.
    rewrite <- (same_name_same_entry _ _ _ _ Hnd Hin Hin') in Hway'.
    apply IH; [|done]. by apply (Hsub (d, sub)).
Qed.

Lemma located_NoDup (skip : bool) (fs : tree) :
  distinct_names fs = true →
  ∀ root, NoDup (Gitwip.get_git_repos root fs skip).
Proof.
  induction fs as [entries IH| |] using tree_rect_entries; intros Hdist root;
    [|apply NoDup_nil_2..].
  rewrite get_git_repos_step.
  destruct (str_in ".git" (map fst entries)); [apply NoDup_singleton|].
  apply distinct_names_Dir in Hdist as [Hnd Hsub].
  revert Hnd Hsub.
  induction IH as [|e es He _ IHes]; intros Hnd Hsub; [apply NoDup_nil_2|].
  cbn [map] in Hnd. apply NoDup_cons in Hnd as [Hnotin Hnd].
  assert (Hrest : NoDup (flat_map
            (fun e => Gitwip.get_git_repos (PyPath.child root e.1) e.2 skip)
            (List.filter (fun e => negb (excluded skip e.1)) es))).
  { apply IHes; [done|]. intros e' He'. apply Hsub. by right. }
  cbn [List.filter]. destruct (negb (excluded skip e.1)); [|done].
  cbn [flat_map]. apply NoDup_app. split; [|split; [|done]].
  - apply He. apply Hsub. by left.
  - intros p Hp (e' & [He' _]%filter_In & Hp')%list_elem_of_In%in_flat_map.
    apply list_elem_of_In in Hp.
    destruct (located_way _ _ _ _ Hp) as (rel & -> & _).
    destruct (located_way _ _ _ _ Hp') as (rel' & Heq & _).
    unfold PyPath.child in Heq. rewrite <- !app_assoc in Heq.
    apply app_inv_head in Heq. injection Heq as Hname _.
    apply Hnotin, list_elem_of_In, in_map_iff. by exists e'.
Qed.

(** X4. In a tree whose directories have distinct names, every
    repository is reported once, and no reported path lies below another
    reported path: a repository nested inside a repository is never
    reported. *)
Theorem located_once_not_nested (skip : bool) (root : Path) (fs : tree) :
  distinct_names fs = true →
  NoDup (Gitwip.get_git_repos root fs skip)
  ∧ ∀ p below,
      p ∈ Gitwip.get_git_repos root fs skip →
      p ++ below ∈ Gitwip.get_git_repos root fs skip →
      below = [].
Proof.
  intros Hdist. split; [by apply located_NoDup|].
  intros p below Hp%list_elem_of_In Hq%list_elem_of_In.
  destruct (located_way _ _ _ _ Hp) as (rel & -> & Hway).
  destruct (located_way _ _ _ _ Hq) as (rel' & Heq & Hway').
  rewrite <- app_assoc in Heq. apply app_inv_head in Heq. subst rel'.
  by apply (way_prefix_free skip fs rel Hway).
Qed.

Lemma located_once_not_nested_witness :
  NoDup (Gitwip.get_git_repos Sample.home Cases.fs false)
  ∧ ¬ (Cases.app ++ ["third_party"]
         ∈ Gitwip.get_git_repos Sample.home Cases.fs false).
Proof.
  destruct (located_once_not_nested false Sample.home Cases.fs)
    as [Hnodup Hnested]; [reflexivity|].
  split; [exact Hnodup|].
  intros Hin.
  assert (Happ : Cases.app ∈ Gitwip.get_git_repos Sample.home Cases.fs false)
    by (apply list_elem_of_In; vm_compute; by left).
  discriminate (Hnested Cases.app ["third_party"] Happ Hin).
Defined.

(** ** The resolver: what it asks and when it gives up *)

(** For an executable whose output decodes: the index of the split of a
    marker line is in range, so the resolver returns; it prints nothing
    and makes between one and four invocations, all of them for the
    repository it was given and among the four read-only queries, the
    first one being the query of [origin/HEAD]. *)
Lemma resolver_returns (git : Path → list string → option string)
    (repo : Path) (w : world) :
  ∃ v cs,
    get_primary_branch git repo w = (Ok v, with_calls w cs)
    ∧ (1 ≤ length cs ≤ 4)%nat
    ∧ head cs = Some (repo, symbolic_ref_args)
    ∧ Forall (fun c => c.1 = repo ∧ c.2 ∈ resolver_queries) cs.
Proof.
  rewrite get_primary_branch_run. cbv zeta.
  repeat match goal with
         | |- context [if ?c then _ else _] => destruct c
         | |- context [match ?c with Some _ => _ | None => _ end] => destruct c
         end;
    eexists _, _; (split; [reflexivity|]); (split; [simpl; lia|]);
    (split; [reflexivity|]);
    repeat (apply Forall_cons; split;
            [split; [reflexivity|unfold resolver_queries; set_solver]|]);
    apply Forall_nil_2.
Qed.

(** X6. The resolver consults nothing but these four queries of its
    repository: two executables that answer them alike give the same
    result and the same invocations. *)
Theorem resolver_local (git1 git2 : Path → list string → option string)
    (repo : Path) (w : world) :
  (∀ args, args ∈ resolver_queries → git1 repo args = git2 repo args) →
  get_primary_branch git1 repo w = get_primary_branch git2 repo w.
Proof.
  intros Hsame. rewrite !get_primary_branch_run. cbv zeta.
  unfold local_branch_exists, answer, resolver_queries in *.
  rewrite (Hsame symbolic_ref_args), (Hsame remote_show_args),
    (Hsame (show_ref_args "main")), (Hsame (show_ref_args "master"));
    [done|set_solver..].
Qed.

Lemma resolver_local_witness :
  get_primary_branch Cases.git_app Cases.app world0
  = get_primary_branch Cases.git_app_other Cases.app world0.
Proof.
  apply (resolver_local Cases.git_app Cases.git_app_other Cases.app world0).
  intros args _. reflexivity.
Defined.

Lemma head_branch_None (lines : list string) :
  head_branch lines = None
  ↔ List.find (PyStr.contains "HEAD branch:") lines = None.
Proof.
  split.
  - destruct (List.find _ lines) as [line|] eqn:Hfind; [|done].
    destruct (head_branch_found _ _ Hfind) as (? & ? & _ & _ & Hh).
    by rewrite Hh.
  - intros Hfind. unfold head_branch. by rewrite Hfind.
Qed.

(** X7. The resolver returns [None] exactly when all four queries come
    to nothing: no non-empty [origin/HEAD], no line with the marker in a
    [remote show origin] output, and neither [main] nor [master] among
    the local references. *)
Theorem resolver_absent_iff (git : Path → list string → option string)
    (repo : Path) (w : world) :
  (get_primary_branch git repo w).1 = Ok None
  ↔ truthy (answer git repo symbolic_ref_args) = false
    ∧ (∀ output, answer git repo remote_show_args = Some output →
                 List.find (PyStr.contains "HEAD branch:")
                   (PyStr.splitlines output) = None)
    ∧ local_branch_exists git repo "main" = false
    ∧ local_branch_exists git repo "master" = false.
Proof.
  rewrite get_primary_branch_run. cbv zeta.
  destruct (truthy (answer git repo symbolic_ref_args)) eqn:Hsym.
  { destruct (answer git repo symbolic_ref_args); [|done].
    simpl. split; [done|]. by intros [? _]. }
  set (found := if truthy (answer git repo remote_show_args)
                then head_branch _ else None).
  assert (Hfound : found = None
    ↔ ∀ output, answer git repo remote_show_args = Some output →
                List.find (PyStr.contains "HEAD branch:")
                  (PyStr.splitlines output) = None).
  { unfold found.
    destruct (answer git repo remote_show_args) as [output|].
    - destruct (truthy (Some output)) eqn:Ht.
      + change (default "" (Some output)) with output.
        rewrite head_branch_None. split; [by intros ? ? [= <-]|auto].
      + destruct output; [|done]. split; [by intros _ ? [= <-]|done].
    - split; [done|done]. }
  destruct found as [name|].
  { simpl. split; [done|]. intros (_ & Hno & _).
    by apply Hfound in Hno. }
  destruct (local_branch_exists git repo "main").
  { simpl. split; [done|]. by intros (_ & _ & ? & _). }
  destruct (local_branch_exists git repo "master").
  { simpl. split; [done|]. by intros (_ & _ & _ & ?). }
  simpl. split; [|done]. intros _. repeat split. by apply Hfound.
Qed.

(** ** The branch listing *)

Lemma lstrip_clean (s : string) : starts_clean (PyStr.lstrip s).
Proof.
  induction s as [|c r IH]; simpl; [done|].
  destruct (PyStr.isspace c) eqn:E; [done|]. simpl. exact E.
Qed.

Lemma lstrip_of_clean (s : string) : starts_clean s → PyStr.lstrip s = s.
Proof. destruct s as [|c r]; simpl; [done|]. by intros ->. Qed.

Lemma rstrip_clean (s : string) : starts_clean s → starts_clean (PyStr.rstrip s).
Proof.
  destruct s as [|c r]; simpl; [done|]. intros Hc. rewrite Hc. simpl.
  exact Hc.
Qed.

Lemma rstrip_idem (s : string) : PyStr.rstrip (PyStr.rstrip s) = PyStr.rstrip s.
Proof.
  induction s as [|c r IH]; simpl; [done|].
  destruct (PyStr.isspace c && negb (PyStr.nonempty (PyStr.rstrip r))) eqn:E;
    [done|].
  simpl. by rewrite IH, E.
Qed.

Lemma strip_idem (s : string) : PyStr.strip (PyStr.strip s) = PyStr.strip s.
Proof.
  unfold PyStr.strip.
  rewrite (lstrip_of_clean (PyStr.rstrip (PyStr.lstrip s)))
    by apply rstrip_clean, lstrip_clean.
  apply rstrip_idem.
Qed.

Lemma single_line_lstrip (s : string) :
  single_line s = true → single_line (PyStr.lstrip s) = true.
Proof.
  unfold single_line. induction s as [|c r IH]; simpl; [done|].
  intros [Hc Hr]%andb_true_iff. destruct (PyStr.isspace c); [by apply IH|].
  simpl. by rewrite Hc, Hr.
Qed.

Lemma single_line_rstrip (s : string) :
  single_line s = true → single_line (PyStr.rstrip s) = true.
Proof.
  unfold single_line. induction s as [|c r IH]; simpl; [done|].
  intros [Hc Hr]%andb_true_iff.
  destruct (PyStr.isspace c && negb (PyStr.nonempty (PyStr.rstrip r)));
    [done|].
  simpl. by rewrite Hc, IH.
Qed.

Lemma single_line_snoc (cur : string) (c : ascii) :
  single_line cur = true → PyStr.islinebreak c = false →
  single_line (cur +:+ String c EmptyString) = true.
Proof.
  unfold single_line. intros Hcur Hc. rewrite chars_app, forallb_app, Hcur.
  simpl. by rewrite Hc.
Qed.

Lemma splitlines_from_single_line (n : nat) :
  ∀ s cur, (String.length s ≤ n)%nat → single_line cur = true →
           Forall (fun line => single_line line = true)
             (PyStr.splitlines_from cur s).
Proof.
  induction n as [|n IH]; intros [|c r] cur Hlen Hcur; simpl in *;
    try (destruct (PyStr.nonempty cur); by repeat constructor); [lia|].
  assert (Hr : (String.length r ≤ n)%nat) by lia.
  destruct (Ascii.eqb c PyStr.CR).
  - destruct r as [|d r'].
    + constructor; [done|]. by apply IH.
    + simpl in Hr. destruct (Ascii.eqb d PyStr.LF);
        (constructor; [done|]); apply IH; simpl; try done; lia.
  - destruct (PyStr.islinebreak c) eqn:Hbreak.
    + constructor; [done|]. by apply IH.
    + apply IH; [done|]. by apply single_line_snoc.
Qed.

Lemma listing_eq (git : Path → list string → option string) (repo : Path) :
  listing git repo
  = match git repo branch_args with
    | Some out => map PyStr.strip (PyStr.splitlines (PyStr.strip out))
    | None => []
    end.
Proof.
  unfold listing, eval, get_repo_branches, bind, subprocess_run. simpl.
  by destruct (git repo branch_args).
Qed.

(** For an executable whose output decodes: the listing returns after
    one invocation, and every name it returns is free of surrounding
    white space and of line boundaries. *)
Lemma listing_names_trimmed (git : Path → list string → option string)
    (repo : Path) (w : world) :
  ∃ branches,
    get_repo_branches git repo w
    = (Ok branches, with_calls w [(repo, branch_args)])
    ∧ Forall (fun b => PyStr.strip b = b ∧ single_line b = true) branches.
Proof.
  exists (listing git repo). split; [apply get_repo_branches_run|].
  rewrite listing_eq. destruct (git repo branch_args) as [out|]; [|done].
  apply Forall_forall. intros b (line & <- & Hline)%list_elem_of_In%in_map_iff.
  split; [apply strip_idem|].
  apply single_line_rstrip, single_line_lstrip.
  pose proof (splitlines_from_single_line _ (PyStr.strip out) EmptyString
                (le_n _) eq_refl) as Hall.
  rewrite Forall_forall in Hall. by apply Hall, list_elem_of_In.
Qed.

(** X9. A listing that succeeds with an empty or blank output, as for a
    repository without any branch, gives no name, and the report loop
    prints nothing for the repository. *)
Theorem blank_listing_omitted (git : Path → list string → option string)
    (home repo : Path) (w : world) (out : string) :
  git repo branch_args = Some out →
  PyStr.strip out = "" →
  get_repo_branches git repo w = (Ok [], with_calls w [(repo, branch_args)])
  ∧ stdout (report_repo git home repo w).2 = stdout w.
Proof.
  intros Hout Hblank.
  assert (Hl : listing git repo = []).
  { by rewrite listing_eq, Hout, Hblank. }
  split.
  - by rewrite get_repo_branches_run, Hl.
  - rewrite report_repo_run. unfold block. rewrite Hl. simpl.
    by rewrite app_nil_r.
Qed.

Lemma blank_listing_omitted_witness :
  stdout (report_repo (fun _ _ => Some ("  " +:+ Sample.nl)) Sample.home
            Sample.repo world0).2
  = stdout world0.
Proof.
  apply (blank_listing_omitted (fun _ _ => Some ("  " +:+ Sample.nl))
           Sample.home Sample.repo world0 ("  " +:+ Sample.nl));
    reflexivity.
Defined.

(** ** The whole scan *)


Lemma elem_of_sorted_repo_paths (resolve : Path → Path) (root : Path)
    (fs : tree) (skip : bool) (path : Path) :
  path ∈ sorted (repo_paths resolve root fs skip)
  ↔ ∃ found, found ∈ Gitwip.get_git_repos root fs skip ∧ resolve found = path.
Proof.
  unfold sorted, repo_paths.
  rewrite merge_sort_Permutation, elem_of_elements, elem_of_list_to_set.
  rewrite list_elem_of_In, in_map_iff. split.
  - intros (found & Hres & Hin). exists found. by rewrite list_elem_of_In.
  - intros (found & Hin & Hres). exists found. by rewrite <- list_elem_of_In.
Qed.


Lemma flat_map_ext_in {A B} (f g : A → list B) (l : list A) :
  (∀ x, In x l → f x = g x) → flat_map f l = flat_map g l.
Proof.
  induction l as [|x l IH]; intros H; simpl; [done|].
  rewrite (H x) by (by left). rewrite IH; [done|]. intros y Hy. apply H.
  by right.
Qed.

Lemma report_repo_local (git1 git2 : Path → list string → option string)
    (home repo : Path) :
  (∀ args, git1 repo args = git2 repo args) →
  repo_calls git1 repo = repo_calls git2 repo
  ∧ block git1 home repo = block git2 home repo.
Proof.
  intros Hsame.
  assert (Hl : listing git1 repo = listing git2 repo)
    by (by rewrite !listing_eq, Hsame).
  assert (Hrun : ∀ w, get_primary_branch git1 repo w
                      = get_primary_branch git2 repo w).
  { intros w. rewrite !get_primary_branch_run. cbv zeta.
    unfold local_branch_exists, answer. by rewrite !Hsame. }
  assert (Hp : primary git1 repo = primary git2 repo)
    by (unfold primary, eval; by rewrite Hrun).
  assert (Hc : primary_calls git1 repo = primary_calls git2 repo)
    by (unfold primary_calls; by rewrite Hrun).
  unfold repo_calls, block. by rewrite Hl, Hp, Hc.
Qed.

(** X11. The scan depends on git only through its answers for the
    located repositories: two executables that answer alike for every
    resolved repository path give the same invocations and the same
    printed lines. *)
Theorem scan_local (git1 git2 : Path → list string → option string)
    (resolve : Path → Path) (home root : Path) (fs : tree) (skip : bool)
    (w : world) :
  (∀ found args, found ∈ Gitwip.get_git_repos root fs skip →
                 git1 (resolve found) args = git2 (resolve found) args) →
  find_repos_with_branches git1 resolve home root fs skip w
  = find_repos_with_branches git2 resolve home root fs skip w.
Proof.
  intros Hsame. unfold find_repos_with_branches. rewrite !report_loop_run.
  assert (Hrepo : ∀ repo, In repo (sorted (repo_paths resolve root fs skip)) →
            repo_calls git1 repo = repo_calls git2 repo
            ∧ block git1 home repo = block git2 home repo).
  { intros repo Hin. apply report_repo_local. intros args.
    apply list_elem_of_In, elem_of_sorted_repo_paths in Hin
      as (found & Hfound & <-).
    by apply Hsame. }
  rewrite (flat_map_ext_in (repo_calls git1) (repo_calls git2))
    by (intros; by apply Hrepo).
  rewrite (flat_map_ext_in (block git1 home) (block git2 home))
    by (intros; by apply Hrepo).
  done.
Qed.

Lemma scan_local_witness :
  find_repos_with_branches Cases.git_app Sample.resolve_id Sample.home
    Sample.home Cases.fs true world0
  = find_repos_with_branches Cases.git_app_other Sample.resolve_id Sample.home
      Sample.home Cases.fs true world0.
Proof.
  apply (scan_local Cases.git_app Cases.git_app_other Sample.resolve_id
           Sample.home Sample.home Cases.fs true world0).
  intros found args Hin. apply list_elem_of_In in Hin. vm_compute in Hin.
  destruct Hin as [<-|[]]. reflexivity.
Defined.

Lemma non_primary_nil (all_branches : list string)
    (primary_branch : option string) :
  non_primary all_branches primary_branch = []
  ↔ ∀ b, b ∈ all_branches → primary_branch = Some b.
Proof.
  unfold non_primary. induction all_branches as [|x l IH]; simpl.
  - split; [|done]. intros _ b Hb. by apply elem_of_nil in Hb.
  - destruct (py_ne x primary_branch) eqn:E.
    + split; [done|]. intros H. specialize (H x (list_elem_of_here _ _)).
      subst primary_branch. simpl in E. by rewrite String.eqb_refl in E.
    + rewrite IH. split.
      * intros H b [->|Hb]%elem_of_cons; [|by apply H].
        destruct primary_branch as [q|]; [|done]. simpl in E.
        by apply negb_false_iff, String.eqb_eq in E as ->.
      * intros H b Hb. apply H. by apply list_elem_of_further.
Qed.

(** X12. The report loop prints nothing for a repository exactly when
    every listed branch is the resolved primary branch: having only the
    primary branch, or no branch at all, is the one way to be left out. *)
Theorem omitted_iff (git : Path → list string → option string)
    (home repo : Path) (w : world) :
  stdout (report_repo git home repo w).2 = stdout w
  ↔ ∀ b, b ∈ listing git repo → primary git repo = Some b.
Proof.
  rewrite report_repo_run, <- non_primary_nil. simpl. unfold block.
  destruct (non_primary (listing git repo) (primary git repo)) as [|b bs].
  - by rewrite app_nil_r.
  - split; [|done]. intros H.
    apply (f_equal length) in H. rewrite length_app in H. simpl in H. lia.
Qed.

(** X13. The scan depends on the tree only through the set of resolved
    repository paths: two trees in which the same canonical paths are
    located, in whatever order and however often, give the same run. *)
Theorem scan_of_path_set (git : Path → list string → option string)
    (resolve : Path → Path) (home root1 root2 : Path) (fs1 fs2 : tree)
    (skip1 skip2 : bool) (w : world) :
  (∀ path,
      (∃ found, found ∈ Gitwip.get_git_repos root1 fs1 skip1
                ∧ resolve found = path)
      ↔ (∃ found, found ∈ Gitwip.get_git_repos root2 fs2 skip2
                  ∧ resolve found = path)) →
  find_repos_with_branches git resolve home root1 fs1 skip1 w
  = find_repos_with_branches git resolve home root2 fs2 skip2 w.
Proof.
  intros Hsame. unfold find_repos_with_branches.
  assert (Hset : repo_paths resolve root1 fs1 skip1
                 = repo_paths resolve root2 fs2 skip2).
  { apply set_eq. intros path. unfold repo_paths.
    rewrite !elem_of_list_to_set, !list_elem_of_In, !in_map_iff.
    specialize (Hsame path). setoid_rewrite list_elem_of_In in Hsame.
    split; intros (found & Hres & Hin).
    - destruct (proj1 Hsame (ex_intro _ found (conj Hin Hres)))
        as (found' & ? & ?). by exists found'.
    - destruct (proj2 Hsame (ex_intro _ found (conj Hin Hres)))
        as (found' & ? & ?). by exists found'. }
  by rewrite Hset.
Qed.

Lemma scan_of_path_set_witness :
  find_repos_with_branches Sample.git_local_master Sample.resolve_id
    Sample.home Sample.root Sample.fs_dash true world0
  = find_repos_with_branches Sample.git_local_master Sample.resolve_id
      Sample.home Sample.root Cases.fs_dash_swapped true world0.
Proof.
  apply (scan_of_path_set Sample.git_local_master Sample.resolve_id
           Sample.home Sample.root Sample.root Sample.fs_dash
           Cases.fs_dash_swapped true true world0).
  intros path.
  split; intros (found & Hin & <-); exists found; (split; [|reflexivity]);
    apply list_elem_of_In; apply list_elem_of_In in Hin;
    vm_compute in Hin; vm_compute; tauto.
Defined.

(** ** The name of a repository *)

Lemma contains_unfold (needle s : string) :
  PyStr.contains needle s
  = PyStr.startswith needle s
    || match s with
       | EmptyString => false
       | String _ r => PyStr.contains needle r
       end.
Proof. by destruct s. Qed.

Lemma startswith_self_app (p r : string) : PyStr.startswith p (p +:+ r) = true.
Proof.
  induction p as [|a p IH]; [done|].
  rewrite append_cons. cbn [PyStr.startswith]. by rewrite Ascii.eqb_refl.
Qed.

Lemma contains_intro (needle a r : string) :
  PyStr.contains needle (a +:+ needle +:+ r) = true.
Proof.
  induction a as [|c a IH].
  - change ("" +:+ needle +:+ r) with (needle +:+ r).
    by rewrite contains_unfold, startswith_self_app.
  - rewrite append_cons, contains_unfold, IH. apply orb_true_r.
Qed.

Lemma after_sep_none (sep : ascii) (s : string) :
  ¬ In sep (list_ascii_of_string s) → after_sep sep s = None.
Proof.
  induction s as [|c s IH]; simpl; [done|]. intros Hnot.
  destruct (Ascii.eqb c sep) eqn:E.
  - apply Ascii.eqb_eq in E. destruct Hnot. by left.
  - apply IH. intros H. apply Hnot. by right.
Qed.

Lemma split_scheme_pass (a cur s : string) :
  ¬ In colon (list_ascii_of_string a) →
  PyStrMore.split_from scheme_sep 0 cur (a +:+ s)
  = PyStrMore.split_from scheme_sep 0 (cur +:+ a) s.
Proof.
  revert cur; induction a as [|c a IH]; intros cur Hnot.
  - by rewrite append_nil_r.
  - rewrite append_cons. cbn [PyStrMore.split_from].
    assert (Hc : Ascii.eqb ":"%char c = false).
    { apply Ascii.eqb_neq. intros <-. apply Hnot. by left. }
    unfold scheme_sep at 1. cbn [PyStr.startswith].
    rewrite Hc. cbn [andb].
    rewrite IH by (intros H; apply Hnot; by right).
    f_equal. by rewrite <- append_assoc.
Qed.

Lemma split_scheme_cut (cur r : string) :
  PyStrMore.split_from scheme_sep 0 cur (scheme_sep +:+ r)
  = cur :: PyStrMore.split_from scheme_sep 0 "" r.
Proof. reflexivity. Qed.

Lemma split_scheme_rest (r cur : string) :
  PyStr.contains scheme_sep r = false →
  PyStrMore.split_from scheme_sep 0 cur r = [cur +:+ r].
Proof.
  revert cur; induction r as [|c r IH]; intros cur.
  - intros _. by rewrite append_nil_r.
  - rewrite contains_unfold. intros [Hhere Hrest]%orb_false_iff.
    cbn [PyStrMore.split_from]. rewrite Hhere, IH by done.
    by rewrite <- append_assoc.
Qed.

Lemma split_scheme (scheme rest : string) :
  ¬ In colon (list_ascii_of_string scheme) →
  PyStr.contains scheme_sep rest = false →
  PyStrMore.split scheme_sep (scheme +:+ scheme_sep +:+ rest) = [scheme; rest].
Proof.
  intros Hscheme Hrest. unfold PyStrMore.split.
  rewrite split_scheme_pass by done.
  by rewrite split_scheme_cut, split_scheme_rest.
Qed.

Lemma get_repo_name_url (git : Path → list string → option string)
    (repo : Path) (w : world) (out : string) :
  git repo remote_get_url_args = Some out →
  get_repo_name git repo w
  = (let url := PyStr.strip out in
     if PyStr.contains scheme_sep url then
       (rest <- index (PyStrMore.split scheme_sep url) 1 ;;
        path <- index (PyStr.split1 slash rest) 1 ;;
        ret path)
     else if PyStr.contains "@" url then
       (rest <- index (PyStr.split1 at_char url) 1 ;;
        path <- index (PyStr.split1 colon rest) 1 ;;
        ret path)
     else ret (path_name repo))
      (with_calls w [(repo, remote_get_url_args)]).
Proof.
  intros Hout. unfold get_repo_name.
  rewrite (bind_ok _ _ w (with_calls w [(repo, remote_get_url_args)])
             (git repo remote_get_url_args) eq_refl).
  by rewrite Hout.
Qed.

Lemma index_split1 (sep : ascii) (before after : string) (w : world) :
  ¬ In sep (list_ascii_of_string before) →
  index (PyStr.split1 sep (before +:+ String sep after)) 1 w = (Ok after, w).
Proof.
  intros Hnot. unfold index, PyStr.split1.
  by rewrite split1_from_after, after_sep_first.
Qed.

(** X14. For a remote URL made of a scheme, [://], a host, a slash and a
    path, the name of the repository is the path after the host, as it
    stands: a trailing [.git] stays, the value of [removesuffix] being
    dropped. *)
Theorem repo_name_of_url (git : Path → list string → option string)
    (repo : Path) (w : world) (out scheme host path : string) :
  git repo remote_get_url_args = Some out →
  PyStr.strip out = scheme +:+ "://" +:+ host +:+ "/" +:+ path →
  ¬ In colon (list_ascii_of_string scheme) →
  ¬ In slash (list_ascii_of_string host) →
  PyStr.contains "://" (host +:+ "/" +:+ path) = false →
  get_repo_name git repo w
  = (Ok path, with_calls w [(repo, remote_get_url_args)]).
Proof.
  intros Hout Hurl Hscheme Hhost Hrest.
  rewrite (get_repo_name_url git repo w out Hout). cbv zeta. rewrite Hurl.
  change "://" with scheme_sep in *.
  rewrite contains_intro, split_scheme by done.
  unfold bind at 1, index at 1. cbn [nth_error ret].
  unfold bind at 1.
  change (host +:+ "/" +:+ path) with (host +:+ String slash path).
  by rewrite index_split1.
Qed.

Lemma repo_name_of_url_witness :
  get_repo_name Cases.git_app_other Cases.other world0
  = (Ok "4mbl/gitwip.git",
     with_calls world0 [(Cases.other, remote_get_url_args)]).
Proof.
  apply (repo_name_of_url Cases.git_app_other Cases.other world0
           ("https://example.com/4mbl/gitwip.git" +:+ Sample.nl)
           "https" "example.com" "4mbl/gitwip.git");
    try reflexivity.
  - vm_compute. intros H. repeat (destruct H as [H|H]; [discriminate H|]).
    exact H.
  - vm_compute. intros H. repeat (destruct H as [H|H]; [discriminate H|]).
    exact H.
Defined.

(** X15. For a remote of the form [user@host:path], without [://], the
    name of the repository is the path after the first colon that
    follows the first [@], again with any trailing [.git]. *)
Theorem repo_name_of_scp (git : Path → list string → option string)
    (repo : Path) (w : world) (out user host path : string) :
  git repo remote_get_url_args = Some out →
  PyStr.strip out = user +:+ "@" +:+ host +:+ ":" +:+ path →
  PyStr.contains "://" (PyStr.strip out) = false →
  ¬ In at_char (list_ascii_of_string user) →
  ¬ In colon (list_ascii_of_string host) →
  get_repo_name git repo w
  = (Ok path, with_calls w [(repo, remote_get_url_args)]).
Proof.
  intros Hout Hurl Hplain Huser Hhost.
  rewrite (get_repo_name_url git repo w out Hout). cbv zeta.
  change scheme_sep with "://". rewrite Hplain, Hurl.
  rewrite contains_intro.
  change (user +:+ "@" +:+ host +:+ ":" +:+ path)
    with (user +:+ String at_char (host +:+ String colon path)).
  unfold bind at 1. rewrite index_split1 by done.
  unfold bind at 1. by rewrite index_split1.
Qed.

Lemma repo_name_of_scp_witness :
  get_repo_name Cases.git_app Cases.app world0
  = (Ok "4mbl/gitwip.git", with_calls world0 [(Cases.app, remote_get_url_args)]).
Proof.
  apply (repo_name_of_scp Cases.git_app Cases.app world0
           ("git@github.com:4mbl/gitwip.git" +:+ Sample.nl)
           "git" "github.com" "4mbl/gitwip.git");
    try reflexivity.
  - vm_compute. intros H. repeat (destruct H as [H|H]; [discriminate H|]).
    exact H.
  - vm_compute. intros H. repeat (destruct H as [H|H]; [discriminate H|]).
    exact H.
Defined.

(** X16. A remote URL with a scheme and a host but no slash after the
    host makes [get_repo_name] raise [IndexError], which it does not
    catch: the second split has one element only. *)
Theorem repo_name_bare_host_raises
    (git : Path → list string → option string)
    (repo : Path) (w : world) (out scheme host : string) :
  git repo remote_get_url_args = Some out →
  PyStr.strip out = scheme +:+ "://" +:+ host →
  ¬ In colon (list_ascii_of_string scheme) →
  ¬ In slash (list_ascii_of_string host) →
  PyStr.contains "://" host = false →
  get_repo_name git repo w
  = (Raise IndexError, with_calls w [(repo, remote_get_url_args)]).
Proof.
  intros Hout Hurl Hscheme Hhost Hrest.
  rewrite (get_repo_name_url git repo w out Hout). cbv zeta. rewrite Hurl.
  change "://" with scheme_sep in *.
  rewrite contains_intro, split_scheme by done.
  unfold bind at 1, index at 1. cbn [nth_error ret].
  unfold bind at 1, index, PyStr.split1.
  by rewrite split1_from_after, after_sep_none.
Qed.

Lemma repo_name_bare_host_raises_witness :
  get_repo_name Cases.git_bare_host Cases.other world0
  = (Raise IndexError, with_calls world0 [(Cases.other, remote_get_url_args)]).
Proof.
  apply (repo_name_bare_host_raises Cases.git_bare_host Cases.other world0
           ("https://example.com" +:+ Sample.nl) "https" "example.com");
    try reflexivity.
  - vm_compute. intros H. repeat (destruct H as [H|H]; [discriminate H|]).
    exact H.
  - vm_compute. intros H. repeat (destruct H as [H|H]; [discriminate H|]).
    exact H.
Defined.

(** ** The older file *)

Lemma length_append (a b : string) :
  String.length (a +:+ b) = (String.length a + String.length b)%nat.
Proof.
  induction a as [|c a IH]; [done|]. rewrite append_cons. simpl. by rewrite IH.
Qed.

Lemma take_append (a b : string) :
  PyStrMore.take (String.length a) (a +:+ b) = a.
Proof.
  induction a as [|c a IH]; [by destruct b|].
  rewrite append_cons. simpl. by rewrite IH.
Qed.

Lemma endswith_append (a suffix : string) :
  PyStrMore.endswith suffix (a +:+ suffix) = true.
Proof.
  unfold PyStrMore.endswith. rewrite length_append.
  replace (String.length a + String.length suffix - String.length suffix)%nat
    with (String.length a) by lia.
  rewrite drop_append, String.eqb_refl, andb_true_r.
  apply Nat.leb_le. lia.
Qed.

Lemma chop_append (a suffix : string) :
  PyStrMore.chop (String.length suffix) (a +:+ suffix) = a.
Proof.
  unfold PyStrMore.chop. rewrite length_append.
  replace (String.length a + String.length suffix - String.length suffix)%nat
    with (String.length a) by lia.
  apply take_append.
Qed.

Lemma lindex_split1 (sep : ascii) (before after : string) (lines : list string) :
  ¬ In sep (list_ascii_of_string before) →
  LegacyRun.lindex (PyStr.split1 sep (before +:+ String sep after)) 1 lines
  = (LegacyRun.Done after, lines).
Proof.
  intros Hnot. unfold LegacyRun.lindex, PyStr.split1.
  by rewrite split1_from_after, after_sep_first.
Qed.

(** X17. The older [get_repo_name] cuts a trailing [.git] off the URL
    before it takes it apart: for a remote [user@host:path.git] it gives
    [path], where the current function gives [path.git]. *)
Theorem legacy_repo_name_cuts_git
    (git : Path → list string → option string)
    (repo : Path) (lines : list string) (out user host path : string) :
  git repo remote_get_url_args = Some out →
  PyStr.strip out = (user +:+ "@" +:+ host +:+ ":" +:+ path) +:+ ".git" →
  PyStr.contains "://" (user +:+ "@" +:+ host +:+ ":" +:+ path) = false →
  ¬ In at_char (list_ascii_of_string user) →
  ¬ In colon (list_ascii_of_string host) →
  LegacyRun.get_repo_name git repo lines = (LegacyRun.Done path, lines).
Proof.
  intros Hout Hurl Hplain Huser Hhost.
  unfold LegacyRun.get_repo_name. rewrite Hout. cbv zeta. rewrite Hurl.
  rewrite endswith_append.
  change 4%nat with (String.length ".git"). rewrite chop_append.
  rewrite Hplain, contains_intro.
  change (user +:+ "@" +:+ host +:+ ":" +:+ path)
    with (user +:+ String at_char (host +:+ String colon path)).
  unfold LegacyRun.lbind at 1. rewrite lindex_split1 by done.
  unfold LegacyRun.lbind at 1. by rewrite lindex_split1.
Qed.

Lemma legacy_repo_name_cuts_git_witness :
  LegacyRun.get_repo_name Cases.git_app Cases.app []
  = (LegacyRun.Done "4mbl/gitwip", []).
Proof.
  apply (legacy_repo_name_cuts_git Cases.git_app Cases.app []
           ("git@github.com:4mbl/gitwip.git" +:+ Sample.nl)
           "git" "github.com" "4mbl/gitwip");
    try reflexivity.
  - vm_compute. intros H. repeat (destruct H as [H|H]; [discriminate H|]).
    exact H.
  - vm_compute. intros H. repeat (destruct H as [H|H]; [discriminate H|]).
    exact H.
Defined.

(** X18. Where the listing succeeds, the primary branch resolves to
    [main] or to [master], and the other of the two names is not a
    branch, the older file, which drops [main] and [master] whatever the
    repository, keeps the same branches as the current one. *)
Theorem legacy_filter_agrees (git : Path → list string → option string)
    (repo : Path) (lines : list string) (name : string) :
  git repo branch_args ≠ None →
  primary git repo = Some name →
  name ∈ ["main"; "master"] →
  (∀ b, b ∈ listing git repo → b ∈ ["main"; "master"] → b = name) →
  LegacyRun.get_repo_branches git repo lines
  = (LegacyRun.Done (non_primary (listing git repo) (primary git repo)), lines).
Proof.
  intros Hok Hprimary Hname Hother.
  unfold LegacyRun.get_repo_branches. rewrite listing_eq in *.
  destruct (git repo branch_args) as [out|]; [|done].
  unfold LegacyRun.lret, non_primary. rewrite Hprimary. do 2 f_equal.
  apply filter_ext_in. intros b Hb. cbn [py_ne]. f_equal.
  destruct (String.eqb b name) eqn:E.
  - apply String.eqb_eq in E as ->. by apply str_in_true.
  - apply not_true_is_false. intros Hin%str_in_true.
    apply String.eqb_neq in E. apply E, Hother; [|done].
    by apply list_elem_of_In.
Qed.

Lemma legacy_filter_agrees_witness :
  LegacyRun.get_repo_branches Cases.git_app Cases.app []
  = (LegacyRun.Done ["topic"], []).
Proof.
  rewrite (legacy_filter_agrees Cases.git_app Cases.app [] "main").
  - reflexivity.
  - discriminate.
  - reflexivity.
  - apply list_elem_of_here.
  - intros b Hb Hin. apply list_elem_of_In in Hb. vm_compute in Hb.
    destruct Hb as [<-|[<-|[]]]; [reflexivity|].
    apply list_elem_of_In in Hin. vm_compute in Hin.
    destruct Hin as [H|[H|[]]]; discriminate H.
Defined.







(** ** Output that does not decode *)

Lemma bind_cong {A B} (m m' : M A) (k k' : A → M B) (w : world) :
  m w = m' w → (∀ a w', k a w' = k' a w') → bind m k w = bind m' k' w.
Proof.
  intros Hm Hk. unfold bind. rewrite Hm.
  destruct (m' w) as [[a|e] w']; [apply Hk|done].
Qed.

Lemma for_each_cong {A} (xs : list A) (f g : A → M unit) :
  (∀ x, x ∈ xs → ∀ w, f x w = g x w) →
  ∀ w, for_each xs f w = for_each xs g w.
Proof.
  induction xs as [|x xs IH]; intros H w; [done|].
  cbn [for_each]. apply bind_cong.
  - apply H, list_elem_of_here.
  - intros _ w'. apply IH. intros y Hy. by apply H, list_elem_of_further.
Qed.

Lemma for_each_app {A} (xs ys : list A) (f : A → M unit) (w : world) :
  for_each (xs ++ ys) f w = bind (for_each xs f) (fun _ => for_each ys f) w.
Proof.
  revert w; induction xs as [|x xs IH]; intros w; [done|].
  cbn [app for_each]. unfold bind.
  destruct (f x w) as [[[]|e] w']; [|done]. rewrite IH. reflexivity.
Qed.

Section Decoding.
Variable git : Path → list string → captured.

(** On an output that decodes, the invocation is the one of the model. *)
Lemma subprocess_run_text_decoded (repo : Path) (args : list string) :
  git repo args ≠ Undecodable →
  ∀ w, subprocess_run_text git repo args w
       = subprocess_run (decoded git) repo args w.
Proof.
  intros Hok w. unfold subprocess_run_text, subprocess_run, decoded.
  by destruct (git repo args).
Qed.

Lemma get_repo_branches_text_decoded (repo : Path) :
  git repo branch_args ≠ Undecodable →
  ∀ w, get_repo_branches_with (subprocess_run_text git) repo w
       = get_repo_branches (decoded git) repo w.
Proof.
  intros Hok w. unfold get_repo_branches_with, get_repo_branches.
  apply bind_cong; [by apply subprocess_run_text_decoded|done].
Qed.

Lemma run_git_text_decoded (repo : Path) (args : list string) :
  git repo args ≠ Undecodable →
  ∀ w, _run_git_with (subprocess_run_text git) repo args w
       = _run_git (decoded git) repo args w.
Proof.
  intros Hok w. unfold _run_git_with, _run_git.
  apply bind_cong; [by apply subprocess_run_text_decoded|done].
Qed.

Lemma get_primary_branch_text_decoded (repo : Path) :
  (∀ args, args ∈ resolver_queries → git repo args ≠ Undecodable) →
  ∀ w, get_primary_branch_with (subprocess_run_text git) repo w
       = get_primary_branch (decoded git) repo w.
Proof.
  intros Hok w. unfold get_primary_branch_with, get_primary_branch.
  assert (Hq : ∀ args, args ∈ resolver_queries →
             ∀ w', _run_git_with (subprocess_run_text git) repo args w'
                   = _run_git (decoded git) repo args w')
    by (intros args Hin; by apply run_git_text_decoded, Hok).
  apply bind_cong; [apply Hq, list_elem_of_here|].
  intros ref w1. destruct (truthy ref); [done|].
  apply bind_cong;
    [apply Hq, list_elem_of_further, list_elem_of_here|].
  intros output w2. apply bind_cong; [done|].
  intros [v|] w3; [done|]. apply bind_cong; [|done].
  cbn [probe_loop_with probe_loop].
  apply bind_cong;
    [apply Hq; do 2 apply list_elem_of_further; apply list_elem_of_here|].
  intros r w4. destruct (truthy r); [done|].
  apply bind_cong;
    [apply Hq; do 3 apply list_elem_of_further; apply list_elem_of_here|].
  done.
Qed.

Lemma report_repo_text_decoded (home repo : Path) :
  (∀ args, args ∈ scan_queries → git repo args ≠ Undecodable) →
  ∀ w, report_repo_with (subprocess_run_text git) home repo w
       = report_repo (decoded git) home repo w.
Proof.
  intros Hok w. unfold report_repo_with, report_repo.
  apply bind_cong.
  - apply get_repo_branches_text_decoded, Hok, list_elem_of_here.
  - intros all_branches w1. apply bind_cong; [|done].
    apply get_primary_branch_text_decoded. intros args Hin.
    by apply Hok, list_elem_of_further.
Qed.

(** Whatever the resolver raises is the decoding error of one of its
    queries. *)
Lemma get_primary_branch_text_raise (repo : Path) (w w' : world) (e : exn) :
  get_primary_branch_with (subprocess_run_text git) repo w = (Raise e, w') →
  e = UnicodeDecodeError
  ∧ ∃ args, args ∈ resolver_queries ∧ git repo args = Undecodable.
Proof.
  assert (Hin : ∀ n args, resolver_queries !! n = Some args →
                          git repo args = Undecodable →
                          ∃ args, args ∈ resolver_queries
                                  ∧ git repo args = Undecodable).
  { intros n args Hn Hu. exists args. split; [|done].
    by apply list_elem_of_lookup_2 in Hn. }
  unfold get_primary_branch_with, _run_git_with.
  unfold bind at 1 2, subprocess_run_text at 1, ret at 1.
  destruct (git repo symbolic_ref_args) as [t| |] eqn:Hsym.
  3: { intros [= <- _]. split; [done|]. by apply (Hin 0%nat _ eq_refl). }
  all: cbn [fmap option_fmap option_map].
  all: match goal with |- context [if ?c then _ else _] => destruct c end;
    [by intros [=]|].
  all: unfold bind at 1 2, subprocess_run_text at 1, ret at 1.
  all: destruct (git repo remote_show_args) as [t'| |] eqn:Hrem.
  all: try (intros [= <- _]; split; [done|]; by apply (Hin 1%nat _ eq_refl)).
  all: cbn [fmap option_fmap option_map].
  all: unfold bind at 1.
  all: match goal with
       | |- context [if ?c then _ else _] =>
           destruct c; [rewrite head_branch_loop_run|unfold ret at 1]
       end.
  all: try match goal with
       | |- context [head_branch ?l] => destruct (head_branch l)
       end.
  all: cbn [fmap option_fmap option_map]; try (by intros [=]).
  all: cbn [probe_loop_with]; unfold _run_git_with.
  all: unfold bind at 1 2 3, subprocess_run_text at 1, ret at 1.
  all: destruct (git repo (show_ref_args "main")) as [tm| |] eqn:Hmain.
  all: try (intros [= <- _]; split; [done|]; by apply (Hin 2%nat _ eq_refl)).
  all: cbn [fmap option_fmap option_map].
  all: try match goal with |- context [if ?c then _ else _] => destruct c end.
  all: try (by intros [=]).
  all: unfold bind at 1 2, subprocess_run_text at 1, ret at 1.
  all: destruct (git repo (show_ref_args "master")) as [ts| |] eqn:Hmaster.
  all: try (intros [= <- _]; split; [done|]; by apply (Hin 3%nat _ eq_refl)).
  all: cbn [fmap option_fmap option_map].
  all: try match goal with |- context [if ?c then _ else _] => destruct c end.
  all: by intros [=].
Qed.

End Decoding.

Lemma as_text_decodable (git : Path → list string → option string)
    (repo : Path) (args : list string) :
  as_text git repo args ≠ Undecodable.
Proof. unfold as_text. by destruct (git repo args). Qed.

(** X5. If none of the four queries of the resolver has an output that
    does not decode, the resolver returns normally, as it does in the
    model of decodable output: the index of the split of a marker line is
    in range, nothing is printed, and between one and four invocations
    are made, all for the repository and among the four read-only
    queries, the first being the query of [origin/HEAD]. The one
    exception that can escape is the [UnicodeDecodeError] of a query
    whose output does not decode; [IndexError] never does. *)
Theorem resolver_on_text (git : Path → list string → captured)
    (repo : Path) (w : world) :
  ((∀ args, args ∈ resolver_queries → git repo args ≠ Undecodable) →
   ∃ v cs,
     get_primary_branch_with (subprocess_run_text git) repo w
     = (Ok v, with_calls w cs)
     ∧ get_primary_branch (decoded git) repo w = (Ok v, with_calls w cs)
     ∧ (1 ≤ length cs ≤ 4)%nat
     ∧ head cs = Some (repo, symbolic_ref_args)
     ∧ Forall (fun c => c.1 = repo ∧ c.2 ∈ resolver_queries) cs)
  ∧ (∀ e w',
       get_primary_branch_with (subprocess_run_text git) repo w
       = (Raise e, w') →
       e = UnicodeDecodeError
       ∧ ∃ args, args ∈ resolver_queries ∧ git repo args = Undecodable).
Proof.
  split.
  - intros Hok.
    destruct (resolver_returns (decoded git) repo w)
      as (v & cs & Hrun & Hlen & Hhead & Hall).
    exists v, cs. by rewrite get_primary_branch_text_decoded.
  - intros e w'. apply get_primary_branch_text_raise.
Qed.

Lemma resolver_on_text_witness :
  ∃ v cs,
    get_primary_branch_with (subprocess_run_text (as_text Cases.git_app))
      Cases.app world0
    = (Ok v, with_calls world0 cs)
    ∧ get_primary_branch (decoded (as_text Cases.git_app)) Cases.app world0
      = (Ok v, with_calls world0 cs)
    ∧ (1 ≤ length cs ≤ 4)%nat
    ∧ head cs = Some (Cases.app, symbolic_ref_args)
    ∧ Forall (fun c => c.1 = Cases.app ∧ c.2 ∈ resolver_queries) cs.
Proof.
  destruct (resolver_on_text (as_text Cases.git_app) Cases.app world0)
    as [Hok _].
  apply Hok. intros args _. apply as_text_decodable.
Defined.

Lemma stripped_lines_trimmed (out : string) :
  Forall (fun b => PyStr.strip b = b ∧ single_line b = true)
    (map PyStr.strip (PyStr.splitlines (PyStr.strip out))).
Proof.
  apply Forall_forall. intros b (line & <- & Hline)%list_elem_of_In%in_map_iff.
  split; [apply strip_idem|].
  apply single_line_rstrip, single_line_lstrip.
  pose proof (splitlines_from_single_line _ (PyStr.strip out) EmptyString
                (le_n _) eq_refl) as Hall.
  rewrite Forall_forall in Hall. by apply Hall, list_elem_of_In.
Qed.

(** X8. The branch listing makes one invocation. If its output does not
    decode, [UnicodeDecodeError] escapes, the handler being for
    [CalledProcessError] only. Otherwise the listing returns, and every
    name it returns is free of surrounding white space and of line
    boundaries. *)
Theorem listing_on_text (git : Path → list string → captured)
    (repo : Path) (w : world) :
  (git repo branch_args = Undecodable →
   get_repo_branches_with (subprocess_run_text git) repo w
   = (Raise UnicodeDecodeError, with_calls w [(repo, branch_args)]))
  ∧ (git repo branch_args ≠ Undecodable →
     ∃ branches,
       get_repo_branches_with (subprocess_run_text git) repo w
       = (Ok branches, with_calls w [(repo, branch_args)])
       ∧ Forall (fun b => PyStr.strip b = b ∧ single_line b = true) branches).
Proof.
  unfold get_repo_branches_with, bind, subprocess_run_text, with_calls.
  destruct (git repo branch_args) as [out| |]; split; try done; intros _.
  - eexists. split; [reflexivity|]. apply stripped_lines_trimmed.
  - by eexists.
Qed.

Lemma listing_on_text_witness :
  get_repo_branches_with (subprocess_run_text Cases.raw_undecodable)
    ["r"; "a-c"] world0
  = (Raise UnicodeDecodeError, with_calls world0 [(["r"; "a-c"], branch_args)])
  ∧ ∃ branches,
      get_repo_branches_with (subprocess_run_text Cases.raw_undecodable)
        ["r"; "a"; "b"] world0
      = (Ok branches, with_calls world0 [(["r"; "a"; "b"], branch_args)])
      ∧ Forall (fun b => PyStr.strip b = b ∧ single_line b = true) branches.
Proof.
  split.
  - apply (listing_on_text Cases.raw_undecodable ["r"; "a-c"] world0).
    reflexivity.
  - apply (listing_on_text Cases.raw_undecodable ["r"; "a"; "b"] world0).
    discriminate.
Defined.




(** X20. A repository whose branch listing does not decode ends the
    scan: the repositories before it in the order of the loop are
    reported as usual, then [UnicodeDecodeError] escapes from the listing,
    and nothing is asked or printed for the repositories that follow. *)
Theorem scan_aborts_on_undecodable (git : Path → list string → captured)
    (resolve : Path → Path) (home root : Path) (fs : tree) (skip : bool)
    (w : world) (before after : list Path) (bad : Path) :
  sorted (repo_paths resolve root fs skip) = before ++ bad :: after →
  (∀ repo args, repo ∈ before → args ∈ scan_queries →
                git repo args ≠ Undecodable) →
  git bad branch_args = Undecodable →
  find_repos_with_branches_text git resolve (Some home) root fs skip w
  = (Raise UnicodeDecodeError,
     World (calls w ++ flat_map (repo_calls (decoded git)) before
                    ++ [(bad, branch_args)])
           (stdout w ++ flat_map (block (decoded git) home) before)).
Proof.
  intros Horder Hbefore Hbad. cbn [find_repos_with_branches_text].
  unfold find_repos_with_branches_with. rewrite Horder, for_each_app.
  unfold bind at 1.
  rewrite (for_each_cong before _ (report_repo (decoded git) home))
    by (intros repo Hrepo; apply report_repo_text_decoded;
        intros args Hargs; by apply Hbefore).
  rewrite report_loop_run. cbn [for_each].
  unfold bind at 1, report_repo_with. unfold bind at 1.
  unfold get_repo_branches_with, bind at 1, subprocess_run_text.
  rewrite Hbad. simpl. by rewrite <- app_assoc.
Qed.

Lemma scan_aborts_on_undecodable_witness :
  find_repos_with_branches_text Cases.raw_undecodable Sample.resolve_id
    (Some Sample.home) Sample.root Sample.fs_dash true world0
  = (Raise UnicodeDecodeError,
     World [(["r"; "a"; "b"], branch_args);
            (["r"; "a"; "b"], symbolic_ref_args);
            (["r"; "a"; "b"], remote_show_args);
            (["r"; "a"; "b"], show_ref_args "main");
            (["r"; "a"; "b"], show_ref_args "master");
            (["r"; "a-c"], branch_args)]
           [Styled "=== /r/a/b ===" BRIGHT_CYAN; Styled "* wip" YELLOW; Blank]).
Proof.
  rewrite (scan_aborts_on_undecodable Cases.raw_undecodable Sample.resolve_id
             Sample.home Sample.root Sample.fs_dash true world0
             [["r"; "a"; "b"]] [] ["r"; "a-c"]).
  - vm_compute. reflexivity.
  - vm_compute. reflexivity.
  - intros repo args Hrepo _. apply list_elem_of_In in Hrepo.
    destruct Hrepo as [<-|[]]. apply as_text_decodable.
  - reflexivity.
Defined.
